(** * Turnstile server: the ticket verification engine

    A shallow embedding of [services/tickets.js] (class [Tickets]),
    [util/cache.js] (class [RedisCache]), [util/worker.js] and the
    handlers of [controllers/EventController.js] and
    [controllers/VerificationController.js], together with the part of
    JavaScript's dynamic semantics those files rely on, and the
    properties of the verification engine that were checked against it.

    Layout:
    - [JS]      values of the language and the operators the code uses
                (truthiness, [||], [===], [>=], [+], template literals);
    - [Redis]   the remote store: one key space holding strings and hashes;
    - [Async]   asynchronous code as command trees: every [await] on the
                store is a node, so that one definition of [verifyTicket]
                can be run alone or interleaved with another attempt;
    - [Cache], [Tickets], [EventController], [Worker],
                [VerificationController]: the code;
    - [Scenario], [Tokens]: concrete hosts, events and tickets to evaluate
                it on;
    - the properties. *)

From stdpp Require Import base gmap strings list pretty.
From Stdlib Require Import ZArith Lia Ascii.

Open Scope Z_scope.

(** ** JavaScript values *)

Module JS.

(** Numbers are IEEE doubles in the language. Every number the engine
    computes is an integer ([0], [1], [Date.now()]) or [NaN]; the model
    keeps the integers and [NaN]. *)
Inductive jsnum := NaN | Num (z : Z).

#[warnings="-register-all"]
Inductive jsval :=
  | JUndefined
  | JNull
  | JBool (b : bool)
  | JNumber (n : jsnum)
  | JString (s : string)
  | JDate (ms : jsnum)
  | JObject (o : gmap string jsval).

Abbreviation obj := (gmap string jsval).

(** [if (v)], [!v] *)
Definition truthy (v : jsval) : bool :=
  match v with
  | JUndefined | JNull => false
  | JBool b => b
  | JNumber NaN => false
  | JNumber (Num z) => negb (z =? 0)
  | JString s => negb (String.eqb s EmptyString)
  | JDate _ | JObject _ => true
  end.

(** [a || b] *)
Definition or (a b : jsval) : jsval := if truthy a then a else b.

(** [o.k] for an own data property; a missing property reads [undefined].
    (Reading a property of [null] or [undefined] throws; every read in the
    code follows a truthiness guard on the object or is on a fresh object.) *)
Definition field (o : obj) (k : string) : jsval := default JUndefined (o !! k).

Definition prop (v : jsval) (k : string) : jsval :=
  match v with
  | JObject o => field o k
  | _ => JUndefined
  end.

(** [o.k = x] on an object *)
Definition set_prop (v : jsval) (k : string) (x : jsval) : jsval :=
  match v with
  | JObject o => JObject (<[k := x]> o)
  | _ => v
  end.

(** [Object.keys(v)] *)
Definition Object_keys (v : jsval) : list string :=
  match v with
  | JObject o => (map_to_list o).*1
  | _ => []
  end.

(** [a === b]. Objects and dates compare by identity; the code only
    compares against strings and [undefined], and two separately obtained
    objects are never identical. *)
Definition num_eqb (a b : jsnum) : bool :=
  match a, b with
  | Num x, Num y => x =? y
  | _, _ => false
  end.

Definition strict_eq (a b : jsval) : bool :=
  match a, b with
  | JUndefined, JUndefined => true
  | JNull, JNull => true
  | JBool x, JBool y => Bool.eqb x y
  | JNumber x, JNumber y => num_eqb x y
  | JString x, JString y => String.eqb x y
  | _, _ => false
  end.

(** Decimal digits of a string; [None] when a character is no digit. *)
Definition digit (c : Ascii.ascii) : option Z :=
  let n := Z.of_N (Ascii.N_of_ascii c) in
  if (48 <=? n) && (n <=? 57) then Some (n - 48) else None.

Fixpoint digits (acc : Z) (s : string) : option Z :=
  match s with
  | EmptyString => Some acc
  | String c s' =>
      match digit c with
      | Some d => digits (10 * acc + d) s'
      | None => None
      end
  end.

(** [Number(s)] on the integer literals: the empty string is [0], an
    optional sign followed by decimal digits is that integer, anything
    else is [NaN]. (The language also reads fractions, exponents, radix
    prefixes and surrounding blanks; the store holds none of those here.) *)
Definition signed_digits (neg : bool) (t : string) : jsnum :=
  match t, digits 0 t with
  | String _ _, Some z => Num (if neg then - z else z)
  | _, _ => NaN
  end.

Definition StringToNumber (s : string) : jsnum :=
  match s with
  | EmptyString => Num 0
  | String c t =>
      if Ascii.eqb c "-" then signed_digits true t
      else if Ascii.eqb c "+" then signed_digits false t
      else signed_digits false s
  end.

(** [String(n)] *)
Definition NumberToString (n : jsnum) : string :=
  match n with
  | NaN => "NaN"
  | Num z => pretty z
  end.

Section with_dates.
(** How a date prints is left to the host. *)
Variable Date_toString : jsnum → string.

(** [String(v)], [`${v}`] *)
Definition ToString (v : jsval) : string :=
  match v with
  | JUndefined => "undefined"
  | JNull => "null"
  | JBool true => "true"
  | JBool false => "false"
  | JNumber n => NumberToString n
  | JString s => s
  | JDate ms => Date_toString ms
  | JObject _ => "[object Object]"
  end.

(** ToPrimitive with hint number (relational operators) *)
Definition ToPrimitive_number (v : jsval) : jsval :=
  match v with
  | JDate ms => JNumber ms
  | JObject _ => JString "[object Object]"
  | _ => v
  end.

(** ToPrimitive with no hint ([+]): a date prefers its string *)
Definition ToPrimitive_default (v : jsval) : jsval :=
  match v with
  | JDate ms => JString (Date_toString ms)
  | JObject _ => JString "[object Object]"
  | _ => v
  end.

(** ToNumber on a primitive *)
Definition ToNumber (v : jsval) : jsnum :=
  match v with
  | JUndefined => NaN
  | JNull => Num 0
  | JBool true => Num 1
  | JBool false => Num 0
  | JNumber n => n
  | JString s => StringToNumber s
  | JDate ms => ms
  | JObject _ => NaN
  end.

(** IsLessThan: [None] is the language's "undefined" answer (a NaN
    operand). Two strings compare by code units, anything else as
    numbers. *)
Definition num_lt (a b : jsnum) : option bool :=
  match a, b with
  | Num x, Num y => Some (x <? y)
  | _, _ => None
  end.

Definition IsLessThan (a b : jsval) : option bool :=
  match ToPrimitive_number a, ToPrimitive_number b with
  | JString s, JString t => Some (String.ltb s t)
  | a', b' => num_lt (ToNumber a') (ToNumber b')
  end.

(** [a < b] *)
Definition lt (a b : jsval) : bool :=
  match IsLessThan a b with Some true => true | _ => false end.

(** [a >= b] *)
Definition ge (a b : jsval) : bool :=
  match IsLessThan a b with Some false => true | _ => false end.

(** [a + b] *)
Definition num_add (a b : jsnum) : jsnum :=
  match a, b with
  | Num x, Num y => Num (x + y)
  | _, _ => NaN
  end.

Definition add (a b : jsval) : jsval :=
  match ToPrimitive_default a, ToPrimitive_default b with
  | JString s, b' => JString (s ++ ToString b')
  | a', JString t => JString (ToString a' ++ t)
  | a', b' => JNumber (num_add (ToNumber a') (ToNumber b'))
  end.
End with_dates.

End JS.

(** ** The remote store

    One Redis key space. A key holds a string (with the expiry it was
    written with, when any) or a hash of string fields; a command on a
    key of the other kind fails. Commands are atomic. Time does not pass
    in the model: an expiry is recorded, never acted on. *)

Module Redis.

Inductive entry :=
  | EString (v : string) (ex : option Z)
  | EHash (h : gmap string string).

Abbreviation store := (gmap string entry).

Inductive command :=
  | GET (key : string)
  | SET (key value : string) (ex : option Z)
  | HGETALL (key : string)
  | HSET (key : string) (fields : gmap string string)
  | DEL (key : string).

Inductive reply :=
  | Nil
  | Bulk (s : string)
  | Fields (h : gmap string string)
  | Done
  | Failed.

(** HGETALL of a key that does not exist is the empty mapping; HSET adds
    and overwrites the given fields and keeps the others. *)
Definition exec (c : command) (σ : store) : reply * store :=
  match c with
  | GET key =>
      match σ !! key with
      | None => (Nil, σ)
      | Some (EString v _) => (Bulk v, σ)
      | Some (EHash _) => (Failed, σ)
      end
  | SET key value ex => (Done, <[key := EString value ex]> σ)
  | HGETALL key =>
      match σ !! key with
      | None => (Fields ∅, σ)
      | Some (EHash h) => (Fields h, σ)
      | Some (EString _ _) => (Failed, σ)
      end
  | HSET key fields =>
      match σ !! key with
      | None => (Done, <[key := EHash fields]> σ)
      | Some (EHash h) => (Done, <[key := EHash (fields ∪ h)]> σ)
      | Some (EString _ _) => (Failed, σ)
      end
  | DEL key => (Done, delete key σ)
  end.

End Redis.

(** ** Asynchronous code

    An [async] function is a tree of store commands: a node is the point
    where the function hands a command to the client and is suspended
    until the reply. ([await] on a value that is no promise suspends too,
    but issues nothing; such a pause changes no state and is left out.) *)

Module Async.
Import Redis.

Inductive prog (A : Type) : Type :=
  | Ret (a : A)
  | Await (c : command) (k : reply → prog A).
Arguments Ret {A} a.
Arguments Await {A} c k.

Fixpoint bind {A B} (p : prog A) (f : A → prog B) : prog B :=
  match p with
  | Ret a => f a
  | Await c k => Await c (λ r, bind (k r) f)
  end.

(** What a call can throw: [new Error(message)], or whatever the client
    library rejects with when a command fails. *)
Inductive exn :=
  | Error (message : string)
  | ClientError.

Inductive result (A : Type) : Type :=
  | Returned (a : A)
  | Thrown (e : exn).
Arguments Returned {A} a.
Arguments Thrown {A} e.

(** The promise of an [async] function: it settles with a value or a
    rejection. *)
Definition async (A : Type) : Type := prog (result A).

Definition resolve {A} (a : A) : async A := Ret (Returned a).
Definition reject {A} (e : exn) : async A := Ret (Thrown e).

Definition then_ {A B} (p : async A) (f : A → async B) : async B :=
  bind p (λ r, match r with Returned a => f a | Thrown e => reject e end).

(** *** Running one call to completion

    A [plan] says which commands of the run fail, counted from the
    world's clock. Only a command whose promise the caller awaits can
    throw into the caller; see [Cache]. *)
Definition plan : Type := nat → bool.
Definition no_faults : plan := λ _, false.

Definition world : Type := nat * store.

Definition awaited (c : command) : bool :=
  match c with
  | GET _ | HGETALL _ | HSET _ _ => true
  | SET _ _ _ | DEL _ => false
  end.

Definition issue (f : plan) (c : command) (w : world) : reply * world :=
  if f w.1 && awaited c then (Failed, (S w.1, w.2))
  else let '(r, σ) := exec c w.2 in (r, (S w.1, σ)).

Fixpoint run {A} (f : plan) (p : prog A) (w : world) : A * world :=
  match p with
  | Ret a => (a, w)
  | Await c k => let '(r, w') := issue f c w in run f (k r) w'
  end.

(** *** Two calls in flight

    The event loop resumes one suspended call at a time; the call then runs
    up to its next command, which the store executes before any command
    issued later. A schedule lists which call is resumed next ([false] the
    first, [true] the second); resuming a call that has settled does
    nothing. *)
Definition resume {A} (p : prog A) (σ : store) : prog A * store :=
  match p with
  | Ret a => (Ret a, σ)
  | Await c k => let '(r, σ') := exec c σ in (k r, σ')
  end.

Fixpoint interleave {A B} (schedule : list bool) (p : prog A) (q : prog B)
    (σ : store) : prog A * prog B * store :=
  match schedule with
  | [] => (p, q, σ)
  | false :: s => let '(p', σ') := resume p σ in interleave s p' q σ'
  | true :: s => let '(q', σ') := resume q σ in interleave s p q' σ'
  end.

Definition settled {A} (p : prog A) : option A :=
  match p with
  | Ret a => Some a
  | Await _ _ => None
  end.

End Async.

(** ** The host: environment variables, the token library, the clock *)

Inductive jwt_outcome :=
  | JwtPayload (payload : JS.obj)
  | JwtTokenExpired
  | JwtError.

Record runtime := {
  JWT_SECRET : option string;
  ISS : option string;
  (** [jwt.verify(token, secret)] on a string token: the payload, a
      [TokenExpiredError], or any other error of the library *)
  jwt_verify : string → option string → jwt_outcome;
  (** [Date.now()] *)
  Date_now : Z;
  (** [new Date(v).getTime()], [NaN] for an invalid date *)
  Date_getTime : JS.jsval → JS.jsnum;
  (** [String(new Date(..))] by its time value *)
  Date_toString : JS.jsnum → string;
}.

(** [process.env.NAME] *)
Definition env (v : option string) : JS.jsval :=
  match v with
  | Some s => JS.JString s
  | None => JS.JUndefined
  end.

(** ** util/cache.js *)

Module Cache.
Import JS Redis Async.

Section with_runtime.
Context (rt : runtime).

(** How the client writes an argument: a string as it is, a number by
    its decimal digits. The other values the code hands over (the date
    [scanned], a claim that is [null] or a boolean) are taken by their
    string form; a client that refuses them makes the write fail. *)
Definition encode (v : jsval) : string := ToString (Date_toString rt) v.

(** [get(key)] returns the client's promise: the value, or [null] when
    the key does not exist. *)
Definition get (key : string) : async jsval :=
  Await (GET key) (λ r,
    match r with
    | Bulk s => resolve (JString s)
    | Failed => reject ClientError
    | _ => resolve JNull
    end).

(** [set(key, value, options = {})]: the client's promise is neither
    awaited nor returned, so the call resolves whatever becomes of the
    command; the command itself is issued. *)
Definition set (key : string) (value : jsval) (ttl : option Z) : async unit :=
  let ex := match ttl with
            | Some t => if truthy (JNumber (Num t)) then Some t else None
            | None => None
            end in
  Await (SET key (encode value) ex) (λ _, resolve ()).

(** [hGetAll(key)] returns the client's promise: an object with one
    string property per field. With the client of [package.json]
    ([redis ^4.7.0]) a key that does not exist gives an object without
    properties, not [null]. *)
Definition hGetAll (key : string) : async jsval :=
  Await (HGETALL key) (λ r,
    match r with
    | Fields h => resolve (JObject (JString <$> h))
    | Failed => reject ClientError
    | _ => resolve JNull
    end).

(** [hSet(key, value)] awaits the client and rethrows; each property of
    [value] is one field. *)
Definition hSet (key : string) (value : jsval) : async unit :=
  let fields := match value with
                | JObject o => encode <$> o
                | _ => ∅
                end in
  Await (HSET key fields) (λ r,
    match r with
    | Failed => reject ClientError
    | _ => resolve ()
    end).

(** [del(key)]: issued, not awaited. The commands of one client are
    executed in the order they are issued. *)
Definition del (key : string) : async unit :=
  Await (DEL key) (λ _, resolve ()).
End with_runtime.

End Cache.

(** ** services/tickets.js *)

Module Tickets.
Import JS Redis Async.

(** The thrown errors, named after the rejection kinds of the design. *)
Definition NoActiveEvent : exn := Error "No current event found".
Definition TokenExpired : exn := Error "Token has expired".
Definition TokenInvalid : exn := Error "Invalid token".
Definition IssuerMismatch (iss : string) : exn :=
  Error ("Ticket was not issued by " ++ iss).
Definition TicketExpired : exn := Error "Ticket has expired".
Definition EventMismatch : exn :=
  Error "The event ID does not match the current event".
Definition Blacklisted : exn := Error "Ticket has been blacklisted".
Definition Revoked : exn := Error "This ticket has been revoked".
Definition ConcurrentProcessing : exn :=
  Error "Ticket is being processed, please wait".
Definition EventFull : exn := Error "Event is at full capacity".
Definition AlreadyInside : exn :=
  Error "Ticket has already been used for entry. The client is still inside the event center".
Definition MaxEntriesReached : exn :=
  Error "Ticket has reached the maximum number of allowed entries".
Definition TicketInvalidOrRevoked : exn :=
  Error "Ticket is invalid or has been revoked".

(** Keys of the store *)
Definition current_event : string := "current_event".
Definition current_attendees_count : string := "current_attendees_count".

(** *** The body of a [try] with its local variable

    [verifyTicket] declares [let decode] before its [try] and reads it in
    [finally]. A statement of the block maps the variable's value to a
    command tree that ends in the value it has then and the statement's
    result. *)
Definition local : Type := option obj.
Definition block (A : Type) : Type := local → prog (local * result A).

Definition unit_block {A} (a : A) : block A := λ l, Ret (l, Returned a).
Definition throw {A} (e : exn) : block A := λ l, Ret (l, Thrown e).

Definition seq {A B} (m : block A) (f : A → block B) : block B :=
  λ l, bind (m l) (λ x,
    match x.2 with
    | Returned a => f a x.1
    | Thrown e => Ret (x.1, Thrown e)
    end).

(** [await call] *)
Definition await {A} (call : async A) : block A :=
  λ l, bind call (λ r, Ret (l, r)).

(** a call of a function that is not [async] *)
Definition call {A} (r : result A) : block A := λ l, Ret (l, r).

(** [decode = value] *)
Definition assign_decode (value : obj) : block unit :=
  λ _, Ret (Some value, Returned ()).

(** [try { body } catch (error) { console.error(..); throw error; }
    finally { cleanup }]: the handler rethrows what it caught, the cleanup
    runs on every exit with the variable as the body left it, and an
    exception of the cleanup replaces the outcome of the body. *)
Definition try_finally {A} (body : block A) (cleanup : block unit) : async A :=
  bind (body None) (λ x,
    bind (cleanup x.1) (λ y,
      Ret (match y.2 with
           | Thrown e => Thrown e
           | Returned _ => x.2
           end))).

Notation "'let*' x ':=' m 'in' k" := (seq m (λ x, k))
  (at level 10, x name, m at level 100, k at level 200, only parsing).

Section with_runtime.
Context (rt : runtime).

Definition template (v : jsval) : string := ToString (Date_toString rt) v.

Definition lock_key (ticketId : jsval) : string := "lock:" ++ template ticketId.
Definition blacklist_key (ticketId : jsval) : string :=
  "blacklist:" ++ template ticketId.
Definition revoked_key (ticketId : jsval) : string :=
  "revoked:" ++ template ticketId.
Definition ticket_key (ticketId : jsval) : string :=
  "ticket:" ++ template ticketId.

(** [verifyToken(token)]. The token library refuses a token that is no
    string with an error that is not a [TokenExpiredError]. *)
Definition verifyToken (token : jsval) : result obj :=
  match token with
  | JString s =>
      match jwt_verify rt s (JWT_SECRET rt) with
      | JwtPayload payload => Returned payload
      | JwtTokenExpired => Thrown TokenExpired
      | JwtError => Thrown TokenInvalid
      end
  | _ => Thrown TokenInvalid
  end.

Definition validateIssuer (decode : obj) : result unit :=
  if negb (strict_eq (field decode "issuer") (env (ISS rt)))
  then Thrown (IssuerMismatch (template (env (ISS rt))))
  else Returned ().

Definition checkTicketExpiry (decode : obj) : result unit :=
  if lt (JNumber (Date_getTime rt (field decode "valid_until")))
        (JNumber (Num (Date_now rt)))
  then Thrown TicketExpired
  else Returned ().

Definition validateEventId (decode : obj) (event : jsval) : result unit :=
  if negb (strict_eq (field decode "event_id") (prop event "id"))
  then Thrown EventMismatch
  else Returned ().

Definition checkBlacklisted (ticketId : jsval) : async unit :=
  then_ (Cache.get (blacklist_key ticketId)) (λ isBlacklisted,
    if truthy isBlacklisted then reject Blacklisted else resolve ()).

Definition checkRevoked (ticketId : jsval) : async unit :=
  then_ (Cache.get (revoked_key ticketId)) (λ isRevoked,
    if truthy isRevoked then reject Revoked else resolve ()).

Definition checkConcurrentProcessing (ticketId : jsval) : async unit :=
  then_ (Cache.get (lock_key ticketId)) (λ checkLock,
    if truthy checkLock then reject ConcurrentProcessing else resolve ()).

(** [{...decode, status: 'valid', scanned: new Date(time),
     device_id: deviceKey, entry_status: 'in', entry_count: 1}] *)
Definition newTicketData (decode : obj) (deviceKey time : jsval) : jsval :=
  JObject
    (<["entry_count" := JNumber (Num 1)]>
      (<["entry_status" := JString "in"]>
        (<["device_id" := deviceKey]>
          (<["scanned" := JDate (Date_getTime rt time)]>
            (<["status" := JString "valid"]> decode))))).

(** [checkValidity.entry_status = 'in'; checkValidity.entry_count += 1] *)
Definition reentered (checkValidity : jsval) : jsval :=
  let o := set_prop checkValidity "entry_status" (JString "in") in
  set_prop o "entry_count"
    (add (Date_toString rt) (prop o "entry_count") (JNumber (Num 1))).

Definition try_block (token deviceKey time : jsval) : block jsval :=
  let* event := await (Cache.hGetAll current_event) in
  if negb (truthy event) then throw NoActiveEvent else
  let* decode := call (verifyToken token) in
  let* _ := assign_decode decode in
  let* _ := call (validateIssuer decode) in
  let* _ := call (checkTicketExpiry decode) in
  let* _ := call (validateEventId decode event) in
  let* _ := await (checkBlacklisted (field decode "ticket_id")) in
  let* _ := await (checkRevoked (field decode "ticket_id")) in
  let* _ := await (checkConcurrentProcessing (field decode "ticket_id")) in
  let* _ := await (Cache.set rt (lock_key (field decode "ticket_id"))
                     (field decode "ticket_id") (Some 30)) in
  let* count := await (Cache.get current_attendees_count) in
  let attendeesCount := or count (JNumber (Num 0)) in
  if ge attendeesCount (prop event "max_capacity") then throw EventFull else
  let* checkValidity :=
    await (Cache.hGetAll (ticket_key (field decode "ticket_id"))) in
  if negb (truthy checkValidity)
     || strict_eq (JNumber (Num (Z.of_nat (length (Object_keys checkValidity)))))
                  (JNumber (Num 0))
  then
    let newTicketData := newTicketData decode deviceKey time in
    let* _ := await (Cache.hSet rt (ticket_key (field decode "ticket_id"))
                       newTicketData) in
    let* _ := await (Cache.set rt current_attendees_count
                       (add (Date_toString rt) attendeesCount (JNumber (Num 1)))
                       None) in
    unit_block newTicketData
  else
  if strict_eq (prop checkValidity "status") (JString "valid") then
    if strict_eq (prop checkValidity "entry_status") (JString "in") then
      throw AlreadyInside
    else if ge (prop checkValidity "entry_count") (prop event "max_entries") then
      throw MaxEntriesReached
    else
      let checkValidity := reentered checkValidity in
      let* _ := await (Cache.hSet rt (ticket_key (prop checkValidity "ticket_id"))
                         checkValidity) in
      let* _ := await (Cache.set rt current_attendees_count
                         (add (Date_toString rt) attendeesCount (JNumber (Num 1)))
                         None) in
      unit_block checkValidity
  else throw TicketInvalidOrRevoked.

(** [finally { if (decode) { await cache.del(`lock:${decode.ticket_id}`); } }] *)
Definition cleanup : block unit :=
  λ l, match l with
       | Some decode => await (Cache.del (lock_key (field decode "ticket_id"))) l
       | None => unit_block () l
       end.

Definition verifyTicket (token deviceKey time : jsval) : async jsval :=
  try_finally (try_block token deviceKey time) cleanup.
End with_runtime.

End Tickets.

(** ** What a handler sends *)

Module Express.

(** [res.status(status).send(body)], [res.status(status).json(body)] *)
Record sent := Sent { status : Z; body : JS.jsval }.

End Express.

(** ** controllers/EventController.js *)

Module EventController.
Import JS Redis Async.

(** What the handler sends: [res.status(status).send({success, ..})]. *)
Record response := Response { status : Z; success : bool }.

Section with_runtime.
Context (rt : runtime).

(** [setEvent(req, res)] on [req.body]. The record written has the four
    fields [id], [name], [max_capacity] and [validity]. *)
Definition setEvent (body : obj) : prog response :=
  let event_id := field body "event_id" in
  let capacity := field body "capacity" in
  let event_name := field body "event_name" in
  let event_validity := field body "event_validity" in
  if negb (truthy event_id) || negb (truthy capacity)
     || negb (truthy event_name) || negb (truthy event_validity)
  then Ret (Response 400 false)
  else
    bind (Cache.hSet rt Tickets.current_event
            (JObject (<["validity" := event_validity]>
                       (<["max_capacity" := capacity]>
                         (<["name" := event_name]>
                           (<["id" := event_id]> ∅))))))
      (λ r, match r with
            | Returned _ => Ret (Response 200 true)
            | Thrown _ => Ret (Response 500 false)
            end).

(** [getEvent(req, res)] *)
Definition getEvent : prog Express.sent :=
  bind (Cache.hGetAll Tickets.current_event) (λ r,
    match r with
    | Returned event =>
        if negb (truthy event)
        then Ret (Express.Sent 404
                    (JObject {[ "error" := JString "No current event found";
                                "success" := JBool false ]}))
        else Ret (Express.Sent 200
                    (JObject {[ "event" := event; "success" := JBool true ]}))
    | Thrown _ =>
        Ret (Express.Sent 500
               (JObject {[ "error" :=
                             JString "Something went wrong while retrieving the event";
                           "success" := JBool false ]}))
    end).

(** [deleteEvent(req, res)] *)
Definition deleteEvent : prog Express.sent :=
  bind (Cache.del Tickets.current_event) (λ r,
    match r with
    | Returned _ =>
        Ret (Express.Sent 200
               (JObject {[ "msg" := JString "Current event deleted successfully";
                           "success" := JBool true ]}))
    | Thrown _ =>
        Ret (Express.Sent 500
               (JObject {[ "error" :=
                             JString "Something went wrong while deleting the event";
                           "success" := JBool false ]}))
    end).
End with_runtime.

End EventController.

(** ** util/worker.js *)

Module Worker.
Import JS Async.

(** The processor of [verification_queue]:
    [async (job) => Tickets.verifyTicket(job.data)]. The payload is the one
    argument of the call; the parameters [deviceKey] and [time] are left
    [undefined]. *)
Definition process (rt : runtime) (job_data : jsval) : async jsval :=
  Tickets.verifyTicket rt job_data JUndefined JUndefined.

(** The payload [{token, deviceKey, scanTime}] of a job *)
Definition payload (token deviceKey scanTime : jsval) : jsval :=
  JObject (<["scanTime" := scanTime]>
            (<["deviceKey" := deviceKey]>
              (<["token" := token]> ∅))).

End Worker.

(** ** controllers/VerificationController.js *)

Module VerificationController.
Import JS Async.

Section with_runtime.
Context (rt : runtime).
(** the message of the error the client library rejects with *)
Context (client_message : string).

(** [error.message] *)
Definition message (error : exn) : string :=
  match error with
  | Error m => m
  | ClientError => client_message
  end.

(** [verifyTicket(req, res)] on [req.body] *)
Definition verifyTicket (body : obj) : prog Express.sent :=
  let deviceKey := field body "deviceKey" in
  let time := field body "time" in
  let qrcode := field body "qrcode" in
  if negb (truthy deviceKey) || negb (truthy time) || negb (truthy qrcode)
  then Ret (Express.Sent 400
              (JObject {[ "success" := JBool false;
                          "msg" := JString "Missing required parameters" ]}))
  else
    bind (Tickets.verifyTicket rt qrcode deviceKey time) (λ r,
      match r with
      | Returned verificationResult =>
          Ret (Express.Sent 200
                 (JObject {[ "success" := JBool true;
                             "code" := deviceKey;
                             "data" := verificationResult;
                             "result" := JNumber (Num 1);
                             "msg" := JString "success" ]}))
      | Thrown error =>
          Ret (Express.Sent 400
                 (JObject {[ "success" := JBool false;
                             "message" := JString (message error) ]}))
      end).
End with_runtime.

End VerificationController.

(** ** A turnstile to run the engine on

    A host with a toy token library: the token [jwt:<id>] verifies to the
    claims of ticket [<id>] of event [E1], issued by [acme] and valid until
    time 2000; [old:<id>] is an expired token; nothing else verifies. The
    clock reads 1000, a date is its number of milliseconds. *)

Module Scenario.
Import JS Redis Async.

Fixpoint strip_prefix (p s : string) : option string :=
  match p, s with
  | EmptyString, _ => Some s
  | String a p', String b s' => if Ascii.eqb a b then strip_prefix p' s' else None
  | String _ _, EmptyString => None
  end.

Definition claims (ticket_id : string) : obj :=
  <["ticket_id" := JString ticket_id]>
    (<["event_id" := JString "E1"]>
      (<["issuer" := JString "acme"]>
        (<["valid_until" := JNumber (Num 2000)]> ∅))).

Definition rt : runtime := {|
  JWT_SECRET := Some "secret";
  ISS := Some "acme";
  jwt_verify := λ token _,
    match strip_prefix "jwt:" token, strip_prefix "old:" token with
    | Some id, _ => JwtPayload (claims id)
    | None, Some _ => JwtTokenExpired
    | None, None => JwtError
    end;
  Date_now := 1000;
  Date_getTime := λ v, match v with JNumber n => n | _ => NaN end;
  Date_toString := NumberToString;
|}.

(** [POST /set-event] with the given capacity on an empty store *)
Definition event_body (capacity : Z) : obj :=
  <["event_id" := JString "E1"]>
    (<["capacity" := JNumber (Num capacity)]>
      (<["event_name" := JString "Gala"]>
        (<["event_validity" := JString "2030-01-01"]> ∅))).

Definition opened (capacity : Z) : store :=
  (run no_faults (EventController.setEvent rt (event_body capacity)) (0%nat, ∅)).2.2.

(** One scan of ticket [id] at device [D1] at time 1500, run to completion *)
Definition scan (id : string) (σ : store) : result jsval * store :=
  let x := run no_faults
             (Tickets.verifyTicket rt (JString ("jwt:" ++ id)) (JString "D1")
                (JNumber (Num 1500)))
             (0%nat, σ) in
  (x.1, x.2.2).

Definition after (id : string) (σ : store) : store := (scan id σ).2.


(** A field of the stored event and of a stored ticket *)
Definition stored_field (σ : store) (key name : string) : option string :=
  match σ !! key with
  | Some (EHash h) => h !! name
  | _ => None
  end.

(** The event as [cache.hGetAll('current_event')] returns it after
    [opened]: every field is a string. *)
Definition event (capacity : string) : jsval :=
  JObject (JString <$>
    {[ "id" := "E1"; "name" := "Gala"; "max_capacity" := capacity;
       "validity" := "2030-01-01" ]}).

(** The record an admission of ticket [id] returns at device [device] *)
Definition admitted (id device : string) : result jsval :=
  Returned (Tickets.newTicketData rt (claims id) (JString device)
              (JNumber (Num 1500))).

(** A property of the record an attempt returned *)
Definition returned_prop (r : result jsval) (name : string) : option jsval :=
  match r with
  | Returned record => Some (prop record name)
  | Thrown _ => None
  end.

(** An event that allows [max_entries] entries per ticket, and a store in
    which ticket [T1] has the record of a holder who is outside after
    [entry_count] entries. No code of the repository writes a [max_entries]
    or an [entry_status] other than [in]: both come from outside. *)
Definition allowing (max_entries : string) : store :=
  {[ "current_event" :=
       EHash {[ "id" := "E1"; "max_capacity" := "100";
                "max_entries" := max_entries ]} ]}.

Definition returning (σ : store) (entry_count : string) : store :=
  <["ticket:T1" :=
      EHash {[ "ticket_id" := "T1"; "event_id" := "E1"; "status" := "valid";
               "entry_status" := "out"; "entry_count" := entry_count ]}]> σ.

(** The store fails the command of the given rank, counted from 0. *)
Definition fault_at (rank : nat) : plan := λ i, Nat.eqb i rank.

(** The two calls of scenario 5: ticket [T1] scanned at two devices *)
Definition first_call : async jsval :=
  Tickets.verifyTicket rt (JString "jwt:T1") (JString "D1") (JNumber (Num 1500)).
Definition second_call : async jsval :=
  Tickets.verifyTicket rt (JString "jwt:T1") (JString "D2") (JNumber (Num 1500)).

End Scenario.

(** ** Tokens of other shapes

    The same host with a token library that reads two more kinds of
    token: [num:<id>] verifies to claims whose [event_id] is the number 7,
    [any:<id>] to claims that name no event. *)

Module Tokens.
Import JS Redis Async.

Definition numbered (ticket_id : string) : obj :=
  <["event_id" := JNumber (Num 7)]> (Scenario.claims ticket_id).

Definition unbound (ticket_id : string) : obj :=
  delete "event_id" (Scenario.claims ticket_id).

Definition rt : runtime := {|
  JWT_SECRET := JWT_SECRET Scenario.rt;
  ISS := ISS Scenario.rt;
  jwt_verify := λ token secret,
    match Scenario.strip_prefix "num:" token, Scenario.strip_prefix "any:" token with
    | Some id, _ => JwtPayload (numbered id)
    | None, Some id => JwtPayload (unbound id)
    | None, None => jwt_verify Scenario.rt token secret
    end;
  Date_now := Date_now Scenario.rt;
  Date_getTime := Date_getTime Scenario.rt;
  Date_toString := Date_toString Scenario.rt;
|}.

(** [POST /set-event] with the number 7 as [event_id], on an empty store *)
Definition opened : store :=
  (run no_faults
     (EventController.setEvent rt
        (<["event_id" := JNumber (Num 7)]> (Scenario.event_body 100)))
     (0%nat, ∅)).2.2.

End Tokens.

(** ** Vocabulary of the properties *)

Import JS Redis Async Tickets.

(** [wp f p w Q]: the run of [p] from world [w] under plan [f] ends in a
    value and a world that satisfy [Q]. *)
Definition wp {A} (f : plan) (p : prog A) (w : world)
    (Q : A → world → Prop) : Prop :=
  Q (run f p w).1 (run f p w).2.

(** What [cache.get(key)] resolves with, when the command succeeds. *)
Definition reads (σ : store) (key : string) : option jsval :=
  match σ !! key with
  | None => Some JNull
  | Some (EString v _) => Some (JString v)
  | Some (EHash _) => None
  end.

(** The fields [HGETALL key] replies with, when the command succeeds. *)
Definition reads_hash (σ : store) (key : string) : option (gmap string string) :=
  match σ !! key with
  | None => Some ∅
  | Some (EHash h) => Some h
  | Some (EString _ _) => None
  end.

(** [cache.get(key)] resolves with a falsy value: the key is absent or
    holds the empty string. *)
Definition free (σ : store) (key : string) : bool :=
  match reads σ key with
  | Some v => negb (truthy v)
  | None => false
  end.

(** What [cache.hGetAll('current_event')] resolves with, when it does. *)
Definition event_of (σ : store) : option jsval :=
  match reads_hash σ current_event with
  | Some h => Some (JObject (JString <$> h))
  | None => None
  end.

(** The first command of an attempt, the load of the current event, does
    not fail: the attempt gets to decode the token. *)
Definition loads_event (f : plan) (w : world) : bool :=
  match (run f (Cache.hGetAll current_event) w).1 with
  | Returned _ => true
  | Thrown _ => false
  end.

(** The fields the client writes for an object *)
Definition hset_fields (rt : runtime) (value : jsval) : gmap string string :=
  match value with
  | JObject o => Cache.encode rt <$> o
  | _ => ∅
  end.

(** Every check of an attempt up to the lock passes in store [σ]: the
    event is loaded as [event], the token verifies to [decode], issuer,
    expiry and event id are right, and the reads of the blacklist, the
    revocation and the lock of the ticket come back falsy. *)
Definition passes (rt : runtime) (σ : store) (token : jsval)
    (decode : obj) (event : jsval) : Prop :=
  event_of σ = Some event ∧
  verifyToken rt token = Returned decode ∧
  validateIssuer rt decode = Returned () ∧
  checkTicketExpiry rt decode = Returned () ∧
  validateEventId decode event = Returned () ∧
  free σ (blacklist_key rt (field decode "ticket_id")) = true ∧
  free σ (revoked_key rt (field decode "ticket_id")) = true ∧
  free σ (lock_key rt (field decode "ticket_id")) = true.

(** The store an admission leaves: the lock written and deleted, the
    record [record] added to the fields [old] of its key, the counter
    rewritten from the value [count] that was read. *)
Definition admitted_store (rt : runtime) (σ : store) (decode : obj)
    (record : jsval) (old : gmap string string) (count : jsval) : store :=
  delete (lock_key rt (field decode "ticket_id"))
    (<[current_attendees_count :=
         EString (Cache.encode rt
                    (add (Date_toString rt) (or count (JNumber (Num 0)))
                       (JNumber (Num 1)))) None]>
      (<[ticket_key rt (prop record "ticket_id") :=
           EHash (hset_fields rt record ∪ old)]>
        (<[lock_key rt (field decode "ticket_id") :=
             EString (Cache.encode rt (field decode "ticket_id")) (Some 30)]> σ))).


(** ** Running command trees *)

Lemma run_bind {A B} f (p : prog A) (k : A → prog B) w :
  run f (bind p k) w = run f (k (run f p w).1) (run f p w).2.
Proof.
  revert w. induction p as [a|c k' IH]; intros w; simpl; [done|].
  destruct (issue f c w) as [r w']. apply IH.
Qed.

Lemma wp_ret {A} f (a : A) w Q : Q a w → wp f (Ret a) w Q.
Proof. done. Qed.

Lemma wp_bind {A B} f (p : prog A) (k : A → prog B) w Q :
  wp f p w (λ a w', wp f (k a) w' Q) → wp f (bind p k) w Q.
Proof. unfold wp. by rewrite run_bind. Qed.

Lemma wp_seq {A B} f (m : block A) (k : A → block B) l w Q :
  wp f (m l) w (λ x w',
    match x.2 with
    | Returned a => wp f (k a x.1) w' Q
    | Thrown e => Q (x.1, Thrown e) w'
    end) →
  wp f (seq m k l) w Q.
Proof.
  intros H. apply wp_bind. unfold wp in *.
  destruct (run f (m l) w) as [[l' [a|e]] w']; done.
Qed.

Lemma wp_await {A} f (c : async A) l w Q :
  wp f c w (λ r w', Q (l, r) w') → wp f (await c l) w Q.
Proof. intros H. by apply wp_bind. Qed.

Lemma wp_then {A B} f (c : async A) (k : A → async B) w Q :
  wp f c w (λ r w',
    match r with
    | Returned a => wp f (k a) w' Q
    | Thrown e => Q (Thrown e) w'
    end) →
  wp f (then_ c k) w Q.
Proof.
  intros H. apply wp_bind. unfold wp in *.
  destruct (run f c w) as [[a|e] w']; done.
Qed.

(** *** The five methods of the cache

    A method that awaits the client either gets its reply or throws,
    because the plan fails the command or the key holds the other kind of
    value. *)

Lemma wp_get f key n σ Q :
  (∀ v, f n = false → reads σ key = Some v → Q (Returned v) (S n, σ)) →
  (f n = true ∨ reads σ key = None → Q (Thrown ClientError) (S n, σ)) →
  wp f (Cache.get key) (n, σ) Q.
Proof.
  intros Hok Herr. unfold wp, Cache.get. simpl. unfold issue. simpl.
  destruct (f n) eqn:Hf; simpl; [by apply Herr; left|].
  unfold reads in *.
  destruct (σ !! key) as [[v ex|h]|] eqn:Hk; simpl; eauto.
Qed.

Lemma wp_hGetAll f key n σ Q :
  (∀ h, f n = false → reads_hash σ key = Some h →
     Q (Returned (JObject (JString <$> h))) (S n, σ)) →
  (f n = true ∨ reads_hash σ key = None → Q (Thrown ClientError) (S n, σ)) →
  wp f (Cache.hGetAll key) (n, σ) Q.
Proof.
  intros Hok Herr. unfold wp, Cache.hGetAll. simpl. unfold issue. simpl.
  destruct (f n) eqn:Hf; simpl; [by apply Herr; left|].
  unfold reads_hash in *.
  destruct (σ !! key) as [[v ex|h]|] eqn:Hk; simpl; eauto.
Qed.

Lemma wp_hSet rt f key value n σ Q :
  (∀ h, f n = false → reads_hash σ key = Some h →
     Q (Returned ()) (S n, <[key := EHash (hset_fields rt value ∪ h)]> σ)) →
  (f n = true ∨ reads_hash σ key = None → Q (Thrown ClientError) (S n, σ)) →
  wp f (Cache.hSet rt key value) (n, σ) Q.
Proof.
  intros Hok Herr. unfold wp, Cache.hSet. simpl. unfold issue. simpl.
  destruct (f n) eqn:Hf; simpl; [by apply Herr; left|].
  unfold reads_hash in *. fold (hset_fields rt value).
  destruct (σ !! key) as [[v ex|h]|] eqn:Hk; simpl; eauto.
  specialize (Hok ∅ eq_refl eq_refl). by rewrite (right_id_L ∅ (∪)) in Hok.
Qed.

Lemma wp_set rt f key v ttl n σ Q :
  Q (Returned ())
    (S n, <[key := EString (Cache.encode rt v)
                     match ttl with
                     | Some t => if truthy (JNumber (Num t)) then Some t else None
                     | None => None
                     end]> σ) →
  wp f (Cache.set rt key v ttl) (n, σ) Q.
Proof.
  intros H. unfold wp, Cache.set. simpl. unfold issue. simpl.
  by rewrite andb_false_r.
Qed.

Lemma wp_del f key n σ Q :
  Q (Returned ()) (S n, delete key σ) → wp f (Cache.del key) (n, σ) Q.
Proof.
  intros H. unfold wp, Cache.del. simpl. unfold issue. simpl.
  by rewrite andb_false_r.
Qed.

(** *** What the hypotheses of a path say about the replies *)

Lemma reads_insert_ne σ k k' e : k ≠ k' → reads (<[k := e]> σ) k' = reads σ k'.
Proof. intros Hne. unfold reads. by rewrite lookup_insert_ne. Qed.

Lemma reads_hash_insert_ne σ k k' e :
  k ≠ k' → reads_hash (<[k := e]> σ) k' = reads_hash σ k'.
Proof. intros Hne. unfold reads_hash. by rewrite lookup_insert_ne. Qed.


Lemma reads_hash_absent σ key : σ !! key = None → reads_hash σ key = Some ∅.
Proof. unfold reads_hash. by intros ->. Qed.

Lemma free_reads σ key :
  free σ key = true → ∃ v, reads σ key = Some v ∧ truthy v = false.
Proof.
  unfold free. destruct (reads σ key) as [v|]; [|done].
  intros H. exists v. split; [done|]. by apply negb_true_iff.
Qed.

Lemma event_of_reads σ event :
  event_of σ = Some event →
  ∃ h, reads_hash σ current_event = Some h ∧ event = JObject (JString <$> h).
Proof.
  unfold event_of. destruct (reads_hash σ current_event) as [h|]; [|done].
  intros [= <-]. by exists h.
Qed.


Lemma verifyToken_throws rt token e :
  verifyToken rt token = Thrown e → e = TokenExpired ∨ e = TokenInvalid.
Proof.
  unfold verifyToken. destruct token; try naive_solver.
  destruct (jwt_verify _ _ _); naive_solver.
Qed.

(** *** The keys of the store do not collide *)

Lemma lock_key_ticket_key rt a b : lock_key rt a ≠ ticket_key rt b.
Proof. discriminate. Qed.

Lemma lock_key_count rt a : lock_key rt a ≠ current_attendees_count.
Proof. discriminate. Qed.

Lemma ticket_key_count rt a : ticket_key rt a ≠ current_attendees_count.
Proof. discriminate. Qed.

(** *** Symbolic execution

    [wp_go] runs a call statement by statement and leaves one goal per
    exit. [wp_path] does the same under hypotheses that fix the replies,
    and follows the one path they select. *)

Ltac wp_pure :=
  match goal with
  | |- wp _ (Ret _) _ _ => apply wp_ret
  | |- wp _ (resolve _) _ _ => apply wp_ret
  | |- wp _ (reject _) _ _ => apply wp_ret
  | |- wp _ (unit_block _ _) _ _ => apply wp_ret
  | |- wp _ (throw _ _) _ _ => apply wp_ret
  | |- wp _ (call _ _) _ _ => apply wp_ret
  | |- wp _ (assign_decode _ _) _ _ => apply wp_ret
  | |- wp _ (seq _ _ _) _ _ => apply wp_seq
  | |- wp _ (await _ _) _ _ => apply wp_await
  | |- wp _ (then_ _ _) _ _ => apply wp_then
  | |- wp _ (bind _ _) _ _ => apply wp_bind
  | |- wp _ (Cache.set _ _ _ _) _ _ => apply wp_set
  | |- wp _ (Cache.del _) _ _ => apply wp_del
  end.

Ltac wp_case tac :=
  match goal with
  | |- wp _ (if ?b then _ else _) _ _ => destruct b eqn:?; tac
  | |- wp _ ((if ?b then _ else _) _) _ _ => destruct b eqn:?; tac
  | |- wp _ (match ?b with _ => _ end) _ _ => destruct b eqn:?; tac
  | |- wp _ (match ?b with _ => _ end _) _ _ => destruct b eqn:?; tac
  | |- match ?b with _ => _ end => destruct b eqn:?; tac
  end.

Ltac wp_store :=
  match goal with
  | |- wp _ (Cache.get _) _ _ => apply wp_get; [intros ? ? ?|intros ?]
  | |- wp _ (Cache.hGetAll _) _ _ => apply wp_hGetAll; [intros ? ? ?|intros ?]
  | |- wp _ (Cache.hSet _ _ _) _ _ => apply wp_hSet; [intros ? ? ?|intros ?]
  end.

Ltac wp_go :=
  repeat first [progress cbn beta iota zeta delta [fst snd]
               | wp_pure | wp_case ltac:(try discriminate) | wp_store].

Ltac other_key :=
  first [apply lock_key_ticket_key | apply lock_key_count | apply ticket_key_count
        | apply not_eq_sym;
          first [apply lock_key_ticket_key | apply lock_key_count
                | apply ticket_key_count]].

Ltac same_reply :=
  repeat match goal with
  | H : context [reads (<[_ := _]> _) _] |- _ =>
      rewrite reads_insert_ne in H by other_key
  | H : context [reads_hash (<[_ := _]> _) _] |- _ =>
      rewrite reads_hash_insert_ne in H by other_key
  | H : no_faults _ = true ∨ _ |- _ => destruct H as [H|H]; [discriminate H|]
  | H1 : reads ?σ ?k = Some _, H2 : reads ?σ ?k = Some ?v |- _ =>
      is_var v; rewrite H1 in H2; injection H2 as <-
  | H1 : reads_hash ?σ ?k = Some _, H2 : reads_hash ?σ ?k = Some ?h |- _ =>
      is_var h; rewrite H1 in H2; injection H2 as <-
  end; try congruence.

Ltac wp_path :=
  repeat first [progress cbn beta iota zeta delta [fst snd]
               | wp_pure | wp_case ltac:(try congruence)
               | wp_store; same_reply].

Ltac wp_verifyTicket :=
  unfold verifyTicket, try_finally, try_block, cleanup,
    checkBlacklisted, checkRevoked, checkConcurrentProcessing.

(** Closed statements about the turnstile are settled by evaluation. *)
Ltac evaluate :=
  repeat match goal with |- _ ∧ _ => split end; vm_compute; reflexivity.

(** ** The lock is released on every exit *)





(** X2. The test [if (!event)] never fires: the object [hGetAll] resolves
    with is truthy also when the key does not exist. *)
Lemma NoActiveEvent_is_never_thrown rt f w token deviceKey time :
  (run f (verifyTicket rt token deviceKey time) w).1 ≠ Thrown NoActiveEvent.
Proof.
  destruct w as [n σ].
  change (wp f (verifyTicket rt token deviceKey time) (n, σ)
    (λ r _, r ≠ Thrown NoActiveEvent)).
  wp_verifyTicket. wp_go; try discriminate.
  all: repeat match goal with
       | H : verifyToken _ _ = Thrown _ |- _ =>
           apply verifyToken_throws in H as [-> | ->]
       | H : validateIssuer _ _ = Thrown _ |- _ =>
           unfold validateIssuer in H; destruct (negb _) in H; [|discriminate];
           injection H as <-
       | H : checkTicketExpiry _ _ = Thrown _ |- _ =>
           unfold checkTicketExpiry in H; destruct (lt _ _) in H; [|discriminate];
           injection H as <-
       | H : validateEventId _ _ = Thrown _ |- _ =>
           unfold validateEventId in H; destruct (negb _) in H; [|discriminate];
           injection H as <-
       end; discriminate.
Qed.

(** ** A rejected attempt changes no ticket and no count *)

(** C7. When [verifyTicket] ends by throwing, be it one of the rejections
    from "No current event found" to "Ticket is invalid or has been
    revoked" or a failure of the store, every ticket record
    [ticket:<ticket_id>] and the attendee counter hold what they held
    before the attempt. *)
Theorem rejection_leaves_ticket_and_count rt f w token deviceKey time e ticketId :
  (run f (verifyTicket rt token deviceKey time) w).1 = Thrown e →
  (run f (verifyTicket rt token deviceKey time) w).2.2 !! ticket_key rt ticketId
    = w.2 !! ticket_key rt ticketId ∧
  (run f (verifyTicket rt token deviceKey time) w).2.2 !! current_attendees_count
    = w.2 !! current_attendees_count.
Proof.
  destruct w as [n σ]. revert e.
  change (wp f (verifyTicket rt token deviceKey time) (n, σ)
    (λ r w', ∀ e, r = Thrown e →
       w'.2 !! ticket_key rt ticketId = σ !! ticket_key rt ticketId ∧
       w'.2 !! current_attendees_count = σ !! current_attendees_count)).
  wp_verifyTicket. wp_go.
  all: intros ? He; try discriminate; simpl.
  all: rewrite ?lookup_delete_ne, ?lookup_insert_ne
         by (apply lock_key_ticket_key || apply lock_key_count); done.
Qed.

(** Witness of C7: ticket [T1] is scanned again while its holder is
    inside (the second scenario of the design). *)
Lemma rejection_leaves_ticket_and_count_witness :
  let σ := Scenario.after "T1" (Scenario.opened 100) in
  let attempt := run no_faults
    (verifyTicket Scenario.rt (JString "jwt:T1") (JString "D1") (JNumber (Num 1500)))
    (0%nat, σ) in
  attempt.1 = Thrown AlreadyInside ∧
  attempt.2.2 !! ticket_key Scenario.rt (JString "T1")
    = σ !! ticket_key Scenario.rt (JString "T1") ∧
  attempt.2.2 !! current_attendees_count = σ !! current_attendees_count.
Proof.
  split; [vm_compute; reflexivity|].
  apply (rejection_leaves_ticket_and_count Scenario.rt no_faults
           (0%nat, Scenario.after "T1" (Scenario.opened 100))
           (JString "jwt:T1") (JString "D1") (JNumber (Num 1500))
           AlreadyInside (JString "T1")).
  vm_compute; reflexivity.
Defined.

(** ** A lock that is found is destroyed *)




(** ** The first entry of a ticket *)

(** What the code does on the path of the first entry, in its own terms:
    when every check up to and including the capacity test
    [attendeesCount >= event.max_capacity] passes and the ticket has no
    record, the attempt returns the new record, has written it under
    [ticket:<ticket_id>], has written [attendeesCount + 1] as the counter,
    and has taken and released the lock. *)
Lemma first_entry rt n σ token deviceKey time decode event count :
  event_of σ = Some event →
  verifyToken rt token = Returned decode →
  validateIssuer rt decode = Returned () →
  checkTicketExpiry rt decode = Returned () →
  validateEventId decode event = Returned () →
  free σ (blacklist_key rt (field decode "ticket_id")) = true →
  free σ (revoked_key rt (field decode "ticket_id")) = true →
  free σ (lock_key rt (field decode "ticket_id")) = true →
  reads σ current_attendees_count = Some count →
  ge (or count (JNumber (Num 0))) (prop event "max_capacity") = false →
  σ !! ticket_key rt (field decode "ticket_id") = None →
  (run no_faults (verifyTicket rt token deviceKey time) (n, σ)).1
    = Returned (newTicketData rt decode deviceKey time) ∧
  (run no_faults (verifyTicket rt token deviceKey time) (n, σ)).2.2
    = delete (lock_key rt (field decode "ticket_id"))
        (<[current_attendees_count :=
             EString (Cache.encode rt
                        (add (Date_toString rt) (or count (JNumber (Num 0)))
                           (JNumber (Num 1)))) None]>
          (<[ticket_key rt (field decode "ticket_id") :=
               EHash (hset_fields rt (newTicketData rt decode deviceKey time))]>
            (<[lock_key rt (field decode "ticket_id") :=
                 EString (Cache.encode rt (field decode "ticket_id")) (Some 30)]> σ))).
Proof.
  intros Hev Hd Hiss Hexp Hid Hbl Hrv Hlk Hcnt Hcap Hrec.
  change (wp no_faults (verifyTicket rt token deviceKey time) (n, σ)
    (λ r w', r = Returned (newTicketData rt decode deviceKey time) ∧
       w'.2 = delete (lock_key rt (field decode "ticket_id"))
        (<[current_attendees_count :=
             EString (Cache.encode rt
                        (add (Date_toString rt) (or count (JNumber (Num 0)))
                           (JNumber (Num 1)))) None]>
          (<[ticket_key rt (field decode "ticket_id") :=
               EHash (hset_fields rt (newTicketData rt decode deviceKey time))]>
            (<[lock_key rt (field decode "ticket_id") :=
                 EString (Cache.encode rt (field decode "ticket_id")) (Some 30)]> σ))))).
  apply event_of_reads in Hev as (h & Hev & ->).
  apply free_reads in Hbl as (vb & Hbl & Hvb).
  apply free_reads in Hrv as (vr & Hrv & Hvr).
  apply free_reads in Hlk as (vl & Hlk & Hvl).
  apply reads_hash_absent in Hrec.
  wp_verifyTicket. rewrite Hd. wp_path.
  all: rewrite ?(right_id_L ∅ (∪)); done.
Qed.

(** The hypotheses hold for ticket [T1] at the freshly opened event. *)
Example first_entry_at_the_opened_event :
  let attempt := run no_faults
    (verifyTicket Scenario.rt (JString "jwt:T1") (JString "D1") (JNumber (Num 1500)))
    (0%nat, Scenario.opened 100) in
  attempt.1 = Scenario.admitted "T1" "D1" ∧
  attempt.2.2 !! current_attendees_count = Some (EString "1" None).
Proof.
  intros attempt.
  destruct (first_entry Scenario.rt 0 (Scenario.opened 100) (JString "jwt:T1")
              (JString "D1") (JNumber (Num 1500)) (Scenario.claims "T1")
              (Scenario.event "100") JNull) as [Hr Hs];
    try (vm_compute; reflexivity).
  split; [exact Hr|]. subst attempt. rewrite Hs.
  rewrite lookup_delete_ne by apply lock_key_count.
  by rewrite lookup_insert_eq.
Qed.

(** Scenario 1 of the design: the event opens with capacity 100, ticket
    [T1] is scanned. It is admitted, its record is stored, the counter
    goes from absent to 1. *)
Example first_scan_admitted :
  let σ := Scenario.opened 100 in
  σ !! current_attendees_count = None ∧
  (Scenario.scan "T1" σ).1 = Scenario.admitted "T1" "D1" ∧
  Scenario.returned_prop (Scenario.scan "T1" σ).1 "entry_status" = Some (JString "in") ∧
  Scenario.returned_prop (Scenario.scan "T1" σ).1 "entry_count" = Some (JNumber (Num 1)) ∧
  Scenario.stored_field (Scenario.after "T1" σ) "ticket:T1" "entry_count" = Some "1" ∧
  Scenario.after "T1" σ !! current_attendees_count = Some (EString "1" None).
Proof. intros. evaluate. Qed.

(** ** The counter is a string *)

(** The store answers [get] with a string, and [string + 1] appends the
    character [1]: once the counter exists, "incrementing" it lengthens
    it. *)
Lemma attendeesCount_plus_one rt (c : string) :
  truthy (JString c) = true →
  add (Date_toString rt) (or (JString c) (JNumber (Num 0))) (JNumber (Num 1))
    = JString (c ++ "1").
Proof. intros Hc. unfold or. rewrite Hc. reflexivity. Qed.

(** Only an absent (or empty) counter is incremented as a number. *)
Lemma attendeesCount_plus_one_absent rt :
  add (Date_toString rt) (or JNull (JNumber (Num 0))) (JNumber (Num 1))
    = JNumber (Num 1).
Proof. reflexivity. Qed.

(** Two strings are compared character by character, whatever numbers
    they spell. *)
Lemma ge_strings (a b : string) : ge (JString a) (JString b) = negb (String.ltb a b).
Proof. unfold ge, IsLessThan. simpl. by destruct (String.ltb a b). Qed.






(** ** Re-entry *)

(** X26. [setEvent] writes no [max_entries]: an event configured through
    it on an empty store has none. *)
Lemma setEvent_writes_no_max_entries rt f n body h :
  (run f (EventController.setEvent rt body) (n, ∅)).2.2 !! current_event
    = Some (EHash h) →
  h !! "max_entries" = None.
Proof.
  change (wp f (EventController.setEvent rt body) (n, ∅)
    (λ _ w, w.2 !! current_event = Some (EHash h) → h !! "max_entries" = None)).
  unfold EventController.setEvent. wp_go; simpl; try done.
  match goal with
  | H : reads_hash ∅ _ = Some _ |- _ =>
      unfold reads_hash in H; rewrite lookup_empty in H; injection H as <-
  end.
  rewrite lookup_insert_eq. intros [= <-].
  rewrite (right_id_L ∅ (∪)). simpl.
  by rewrite lookup_fmap, !lookup_insert_ne, lookup_empty.
Qed.

(** Witness: the event of the scenarios. *)
Lemma setEvent_writes_no_max_entries_witness :
  ({[ "id" := "E1"; "name" := "Gala"; "max_capacity" := "100";
      "validity" := "2030-01-01" ]} : gmap string string) !! "max_entries" = None.
Proof.
  apply (setEvent_writes_no_max_entries Scenario.rt no_faults 0
           (Scenario.event_body 100)
           {[ "id" := "E1"; "name" := "Gala"; "max_capacity" := "100";
              "validity" := "2030-01-01" ]}).
  vm_compute; reflexivity.
Defined.

(** C5 fails on the code. A holder who is outside after 1 entry, under an
    event that allows 3, is admitted with an entry count of "11", not 2;
    a holder with 10 entries, under an event that allows 9, is admitted
    (with "101") although 10 >= 9; and under the event [setEvent] writes,
    which has no [max_entries], a holder with 7 entries is admitted. *)
Theorem reentry_appends_a_digit :
  let σ := Scenario.returning (Scenario.allowing "3") "1" in
  let σ' := Scenario.returning (Scenario.allowing "9") "10" in
  let σ'' := Scenario.returning (Scenario.opened 100) "7" in
  (Scenario.stored_field σ "ticket:T1" "status" = Some "valid" ∧
   Scenario.stored_field σ "ticket:T1" "entry_status" = Some "out" ∧
   Scenario.stored_field σ "ticket:T1" "entry_count" = Some "1" ∧
   Scenario.stored_field σ current_event "max_entries" = Some "3" ∧
   Scenario.returned_prop (Scenario.scan "T1" σ).1 "entry_status"
     = Some (JString "in") ∧
   Scenario.returned_prop (Scenario.scan "T1" σ).1 "entry_count"
     = Some (JString "11") ∧
   Scenario.stored_field (Scenario.after "T1" σ) "ticket:T1" "entry_count"
     = Some "11") ∧
  (Scenario.stored_field σ' "ticket:T1" "entry_count" = Some "10" ∧
   Scenario.stored_field σ' current_event "max_entries" = Some "9" ∧
   Scenario.returned_prop (Scenario.scan "T1" σ').1 "entry_count"
     = Some (JString "101")) ∧
  (Scenario.stored_field σ'' "ticket:T1" "entry_count" = Some "7" ∧
   Scenario.stored_field σ'' current_event "max_entries" = None ∧
   Scenario.returned_prop (Scenario.scan "T1" σ'').1 "entry_count"
     = Some (JString "71")).
Proof. intros. evaluate. Qed.

(** ** Two attempts on one ticket *)

(** A schedule that resumes only the first call runs it as [run] does. *)
Lemma interleave_first_alone {A B} (p : prog A) (q : prog B) σ n :
  ∃ k, interleave (replicate k false) p q σ
       = (Ret (run no_faults p (n, σ)).1, q, (run no_faults p (n, σ)).2.2).
Proof.
  revert σ n. induction p as [a|c k IH]; intros σ n.
  - by exists 0%nat.
  - simpl. unfold issue. simpl. destruct (exec c σ) as [r σ'] eqn:Hc.
    destruct (IH r σ' (S n)) as [j Hj]. exists (S j). simpl. by rewrite Hc.
Qed.


(** The check and the write are two commands. When the second call reads
    the lock between them it passes; when it reads the lock after the
    write it is refused, and its cleanup then deletes the lock the first
    call, still in flight, had written. *)
Example loser_deletes_the_lock_of_the_winner :
  let mid := interleave (replicate 5 false ++ replicate 5 true)
               Scenario.first_call Scenario.second_call (Scenario.opened 100) in
  settled mid.1.1 = None ∧
  settled mid.1.2 = Some (Thrown ConcurrentProcessing) ∧
  mid.2 !! "lock:T1" = None.
Proof. intros. evaluate. Qed.

(** ** The queue worker *)

(** Whatever the job, the worker's call does not return: the payload object
    is passed where the token string is expected. *)
Lemma worker_never_admits rt f w token deviceKey scanTime :
  (run f (Worker.process rt (Worker.payload token deviceKey scanTime)) w).1
    = Thrown TokenInvalid ∨
  (run f (Worker.process rt (Worker.payload token deviceKey scanTime)) w).1
    = Thrown ClientError.
Proof.
  destruct w as [n σ].
  change (wp f (Worker.process rt (Worker.payload token deviceKey scanTime)) (n, σ)
    (λ r _, r = Thrown TokenInvalid ∨ r = Thrown ClientError)).
  unfold Worker.process, Worker.payload. wp_verifyTicket.
  cbn [verifyToken]. wp_go; auto.
Qed.


(** * Further properties of the code

    Beyond the properties above: what an attempt writes and what it never
    writes, what an admission implies, which records bar the entry, and
    the handlers and the cache around the engine. The first lemmas invert
    an attempt by its outcome; the theorems after them are read off
    those. *)

Lemma run_ret {A} f (a : A) w : run f (Ret a) w = (a, w).
Proof. done. Qed.

(** ** What an attempt does to the store *)

Lemma reads_free σ key v :
  reads σ key = Some v → truthy v = false → free σ key = true.
Proof. unfold free. intros -> ->. done. Qed.

Lemma reads_hash_event σ h :
  reads_hash σ current_event = Some h → event_of σ = Some (JObject (JString <$> h)).
Proof. unfold event_of. by intros ->. Qed.

(** An attempt that throws has written nothing but its lock, and has
    deleted it: the store is as it was found, without the lock of the
    ticket when the token was decoded. *)
Lemma thrown_store rt f n σ token deviceKey time e :
  (run f (verifyTicket rt token deviceKey time) (n, σ)).1 = Thrown e →
  (run f (verifyTicket rt token deviceKey time) (n, σ)).2.2 = σ ∨
  ∃ decode, verifyToken rt token = Returned decode ∧
    (run f (verifyTicket rt token deviceKey time) (n, σ)).2.2
      = delete (lock_key rt (field decode "ticket_id")) σ.
Proof.
  revert e.
  change (wp f (verifyTicket rt token deviceKey time) (n, σ)
    (λ r w', ∀ e, r = Thrown e →
       w'.2 = σ ∨ ∃ decode, verifyToken rt token = Returned decode ∧
                 w'.2 = delete (lock_key rt (field decode "ticket_id")) σ)).
  wp_verifyTicket. wp_go.
  all: intros ? He; try discriminate; simpl.
  all: try (by left).
  all: right; eexists; split; [reflexivity|].
  all: by rewrite ?delete_insert_eq.
Qed.


(** *** Objects read from the store *)

Lemma prop_stored (h : gmap string string) k :
  prop (JObject (JString <$> h)) k
    = match h !! k with Some s => JString s | None => JUndefined end.
Proof. simpl. unfold field. rewrite lookup_fmap. by destruct (h !! k). Qed.

Lemma stored_is (h : gmap string string) k s :
  strict_eq (prop (JObject (JString <$> h)) k) (JString s) = true ↔ h !! k = Some s.
Proof.
  rewrite prop_stored. destruct (h !! k) as [t|]; simpl; [|done].
  rewrite String.eqb_eq. naive_solver.
Qed.

Lemma stored_is_not (h : gmap string string) k s :
  strict_eq (prop (JObject (JString <$> h)) k) (JString s) = false ↔ h !! k ≠ Some s.
Proof.
  rewrite <- stored_is. by destruct (strict_eq _ _).
Qed.

(** [!checkValidity || Object.keys(checkValidity).length === 0] holds of
    what [hGetAll] resolves with exactly when the key has no field. *)
Lemma no_record_iff (h : gmap string string) :
  negb (truthy (JObject (JString <$> h)))
  || strict_eq
       (JNumber (Num (Z.of_nat (length (Object_keys (JObject (JString <$> h)))))))
       (JNumber (Num 0)) = true
  ↔ h = ∅.
Proof.
  simpl. rewrite length_fmap. split.
  - intros H. apply Z.eqb_eq in H.
    apply (fmap_empty_inv JString), map_to_list_empty_iff, nil_length_inv. lia.
  - intros ->. by rewrite fmap_empty, map_to_list_empty.
Qed.

Lemma newTicketData_ticket_id rt decode deviceKey time :
  prop (newTicketData rt decode deviceKey time) "ticket_id" = field decode "ticket_id".
Proof. simpl. unfold field. by rewrite !lookup_insert_ne. Qed.

(** An attempt that returns went through every check and through one of
    the two admitting branches, and left the store of an admission. *)
Lemma admitted_inv rt f n σ token deviceKey time r :
  (run f (verifyTicket rt token deviceKey time) (n, σ)).1 = Returned r →
  ∃ decode event count old record,
    passes rt σ token decode event ∧
    reads σ current_attendees_count = Some count ∧
    ge (or count (JNumber (Num 0))) (prop event "max_capacity") = false ∧
    reads_hash σ (ticket_key rt (field decode "ticket_id")) = Some record ∧
    reads_hash σ (ticket_key rt (prop r "ticket_id")) = Some old ∧
    (run f (verifyTicket rt token deviceKey time) (n, σ)).2.2
      = admitted_store rt σ decode r old count ∧
    ((record = ∅ ∧ r = newTicketData rt decode deviceKey time) ∨
     (record ≠ ∅ ∧ record !! "status" = Some "valid" ∧
      record !! "entry_status" ≠ Some "in" ∧
      ge (prop (JObject (JString <$> record)) "entry_count")
         (prop event "max_entries") = false ∧
      r = reentered rt (JObject (JString <$> record)))).
Proof.
  revert r.
  change (wp f (verifyTicket rt token deviceKey time) (n, σ)
    (λ r' w', ∀ r, r' = Returned r →
      ∃ decode event count old record,
        passes rt σ token decode event ∧
        reads σ current_attendees_count = Some count ∧
        ge (or count (JNumber (Num 0))) (prop event "max_capacity") = false ∧
        reads_hash σ (ticket_key rt (field decode "ticket_id")) = Some record ∧
        reads_hash σ (ticket_key rt (prop r "ticket_id")) = Some old ∧
        w'.2 = admitted_store rt σ decode r old count ∧
        ((record = ∅ ∧ r = newTicketData rt decode deviceKey time) ∨
         (record ≠ ∅ ∧ record !! "status" = Some "valid" ∧
          record !! "entry_status" ≠ Some "in" ∧
          ge (prop (JObject (JString <$> record)) "entry_count")
             (prop event "max_entries") = false ∧
          r = reentered rt (JObject (JString <$> record)))))).
  wp_verifyTicket. wp_go.
  all: intros ? He; try discriminate; injection He as <-; simpl fst; simpl snd.
  all: repeat match goal with
       | H : context [reads (<[_ := _]> _) _] |- _ =>
           rewrite reads_insert_ne in H by other_key
       | H : context [reads_hash (<[_ := _]> _) _] |- _ =>
           rewrite reads_hash_insert_ne in H by other_key
       | H : Returned _ = Returned () |- _ => clear H
       | u : () |- _ => destruct u
       | H1 : reads_hash ?σ ?k = Some _, H2 : reads_hash ?σ ?k = Some ?h |- _ =>
           is_var h; rewrite H1 in H2; injection H2 as <-
       end.
  all: eexists _, (JObject (JString <$> _)), _, _, _.
  all: split; [repeat split; eauto using reads_hash_event, reads_free|].
  all: repeat split; eauto.
  - by rewrite newTicketData_ticket_id.
  - unfold admitted_store. by rewrite newTicketData_ticket_id.
  - left. split; [by apply no_record_iff|done].
  - right. repeat split; [|by apply stored_is|by apply stored_is_not|done].
    intros Hnone. apply no_record_iff in Hnone. congruence.
Qed.

Lemma admitted_fields rt f n σ token deviceKey time r :
  (run f (verifyTicket rt token deviceKey time) (n, σ)).1 = Returned r →
  ∃ o, r = JObject o ∧ o !! "status" = Some (JString "valid") ∧
       o !! "entry_status" = Some (JString "in").
Proof.
  intros Hr.
  destruct (admitted_inv rt f n σ token deviceKey time r Hr)
    as (d & ev & c & old & rec & _ & _ & _ & _ & _ & _ & Hcase).
  destruct Hcase as [[_ ->]|(_ & Hst & _ & _ & ->)]; eexists; (split; [reflexivity|]).
  - split.
    + rewrite !lookup_insert_ne by discriminate. by rewrite lookup_insert_eq.
    + rewrite lookup_insert_ne by discriminate. by rewrite lookup_insert_eq.
  - split.
    + rewrite !lookup_insert_ne by discriminate. by rewrite lookup_fmap, Hst.
    + rewrite lookup_insert_ne by discriminate. by rewrite lookup_insert_eq.
Qed.

Lemma loads_event_true f n σ h :
  f n = false → reads_hash σ current_event = Some h →
  loads_event f (n, σ) = true.
Proof.
  intros Hf Hh. unfold loads_event, Cache.hGetAll. simpl. unfold issue. simpl.
  rewrite Hf. simpl. unfold reads_hash in Hh.
  destruct (σ !! current_event) as [[v ex|h']|]; by simplify_eq.
Qed.

Lemma loads_event_false f n σ :
  f n = true ∨ reads_hash σ current_event = None →
  loads_event f (n, σ) = false.
Proof.
  intros Hf. unfold loads_event, Cache.hGetAll. simpl. unfold issue. simpl.
  destruct (f n); [done|]. destruct Hf as [|Hh]; [done|]. simpl.
  unfold reads_hash in Hh.
  destruct (σ !! current_event) as [[v ex|h']|]; by simplify_eq.
Qed.

(** An attempt on a token that does not verify issues the load of the
    event and nothing else. *)
Lemma undecoded rt f w token deviceKey time e :
  verifyToken rt token = Thrown e →
  (run f (verifyTicket rt token deviceKey time) w).1
    = Thrown (if loads_event f w then e else ClientError) ∧
  (run f (verifyTicket rt token deviceKey time) w).2.2 = w.2.
Proof.
  destruct w as [n σ]. intros Hd.
  change (wp f (verifyTicket rt token deviceKey time) (n, σ)
    (λ r w', r = Thrown (if loads_event f (n, σ) then e else ClientError) ∧
             w'.2 = σ)).
  wp_verifyTicket. rewrite Hd. wp_go.
  - by rewrite (loads_event_true f n σ h).
  - by rewrite loads_event_false.
Qed.


(** A record that says its holder is inside bars the entry. *)
Lemma holder_inside rt f w token deviceKey time decode h :
  verifyToken rt token = Returned decode →
  w.2 !! ticket_key rt (field decode "ticket_id") = Some (EHash h) →
  h !! "entry_status" = Some "in" →
  ∃ e, (run f (verifyTicket rt token deviceKey time) w).1 = Thrown e.
Proof.
  destruct w as [n σ]. simpl. intros Hd Hrec Hin.
  destruct (run f (verifyTicket rt token deviceKey time) (n, σ)).1 as [r|e] eqn:Hr;
    [|by eexists].
  destruct (admitted_inv rt f n σ token deviceKey time r Hr)
    as (d & ev & c & old & rec & (_ & Hd' & _) & _ & _ & Hrec' & _ & _ & Hcase).
  rewrite Hd in Hd'. injection Hd' as <-.
  unfold reads_hash in Hrec'. rewrite Hrec in Hrec'. injection Hrec' as <-.
  destruct Hcase as [[-> _]|(_ & _ & Hout & _)]; [|done].
  by rewrite lookup_empty in Hin.
Qed.

(** ** What verification never writes *)

(** X3. An attempt that ends by throwing has changed no key of the store
    but its own lock: when the token does not verify, nothing at all;
    when it verifies to claims [decode], every key other than
    [lock:<ticket_id>] holds what it held, and that key is absent. *)
Theorem rejection_touches_only_its_lock rt f w token deviceKey time e :
  (run f (verifyTicket rt token deviceKey time) w).1 = Thrown e →
  match verifyToken rt token with
  | Thrown _ => (run f (verifyTicket rt token deviceKey time) w).2.2 = w.2
  | Returned decode =>
      ∀ key, key ≠ lock_key rt (field decode "ticket_id") →
        (run f (verifyTicket rt token deviceKey time) w).2.2 !! key = w.2 !! key
  end.
Proof.
  destruct w as [n σ]. intros He.
  destruct (thrown_store rt f n σ token deviceKey time e He) as [->|(d & Hd & ->)].
  - destruct (verifyToken rt token); [by intros|done].
  - rewrite Hd. intros key Hkey. simpl. by rewrite lookup_delete_ne.
Qed.

(** Witness: the second scan of [T1], rejected because its holder is
    inside, leaves the record of [T1], the counter and the event alone. *)
Lemma rejection_touches_only_its_lock_witness :
  let w := (0%nat, Scenario.after "T1" (Scenario.opened 100)) in
  let call := verifyTicket Scenario.rt (JString "jwt:T1") (JString "D1")
                (JNumber (Num 1500)) in
  (run no_faults call w).1 = Thrown AlreadyInside ∧
  match verifyToken Scenario.rt (JString "jwt:T1") with
  | Thrown _ => (run no_faults call w).2.2 = w.2
  | Returned decode =>
      ∀ key, key ≠ lock_key Scenario.rt (field decode "ticket_id") →
        (run no_faults call w).2.2 !! key = w.2 !! key
  end.
Proof.
  split; [vm_compute; reflexivity|].
  apply (rejection_touches_only_its_lock Scenario.rt no_faults
           (0%nat, Scenario.after "T1" (Scenario.opened 100))
           (JString "jwt:T1") (JString "D1") (JNumber (Num 1500)) AlreadyInside).
  vm_compute; reflexivity.
Defined.

(** X4. Whatever the token, the store and the failures, and however the
    attempt ends, verification writes neither the current event nor any
    blacklist or revocation entry. *)
Theorem verification_writes_no_event_and_no_exclusion rt f w token deviceKey time :
  let σ' := (run f (verifyTicket rt token deviceKey time) w).2.2 in
  σ' !! current_event = w.2 !! current_event ∧
  (∀ id, σ' !! blacklist_key rt id = w.2 !! blacklist_key rt id) ∧
  (∀ id, σ' !! revoked_key rt id = w.2 !! revoked_key rt id).
Proof.
  destruct w as [n σ]. simpl.
  assert (∀ key, (∀ id, key ≠ lock_key rt id) → (∀ id, key ≠ ticket_key rt id) →
            key ≠ current_attendees_count →
            (run f (verifyTicket rt token deviceKey time) (n, σ)).2.2 !! key
              = σ !! key) as Hframe.
  { intros key Hl Ht Hc.
    destruct (run f (verifyTicket rt token deviceKey time) (n, σ)).1 as [r|e] eqn:Hr.
    - destruct (admitted_inv rt f n σ token deviceKey time r Hr)
        as (d & ev & c & old & rec & _ & _ & _ & _ & _ & -> & _).
      unfold admitted_store.
      by rewrite lookup_delete_ne, !lookup_insert_ne.
    - destruct (thrown_store rt f n σ token deviceKey time e Hr) as [->|(d & _ & ->)];
        [done|]. by rewrite lookup_delete_ne. }
  repeat split; intros; apply Hframe; discriminate.
Qed.

(** ** What an admission implies *)

(** X5. An attempt returns a record only if every check passed in the store
    it started from: the event was loaded, the token verified, issuer,
    expiry and event id were right, the reads of blacklist, revocation and
    lock came back falsy, and the capacity test
    [attendeesCount >= event.max_capacity] on the counter as read was
    false. This holds for every store and every plan of failures. *)
Theorem admission_passed_every_check rt f w token deviceKey time r :
  (run f (verifyTicket rt token deviceKey time) w).1 = Returned r →
  ∃ decode event count,
    passes rt w.2 token decode event ∧
    reads w.2 current_attendees_count = Some count ∧
    ge (or count (JNumber (Num 0))) (prop event "max_capacity") = false.
Proof.
  destruct w as [n σ]. intros Hr.
  destruct (admitted_inv rt f n σ token deviceKey time r Hr)
    as (d & ev & c & old & rec & Hp & Hc & Hcap & _).
  by exists d, ev, c.
Qed.

Lemma admission_passed_every_check_witness :
  let w := (0%nat, Scenario.opened 100) in
  let call := verifyTicket Scenario.rt (JString "jwt:T1") (JString "D1")
                (JNumber (Num 1500)) in
  (run no_faults call w).1 = Scenario.admitted "T1" "D1" ∧
  ∃ decode event count,
    passes Scenario.rt w.2 (JString "jwt:T1") decode event ∧
    reads w.2 current_attendees_count = Some count ∧
    ge (or count (JNumber (Num 0))) (prop event "max_capacity") = false.
Proof.
  split; [vm_compute; reflexivity|].
  apply (admission_passed_every_check Scenario.rt no_faults
           (0%nat, Scenario.opened 100) (JString "jwt:T1") (JString "D1")
           (JNumber (Num 1500))
           (newTicketData Scenario.rt (Scenario.claims "T1") (JString "D1")
              (JNumber (Num 1500)))).
  vm_compute; reflexivity.
Defined.

(** X6. A ticket whose blacklist key or revocation key holds anything but
    the empty string is never admitted: whatever else the store holds and
    whichever commands fail, the attempt ends by throwing. *)
Theorem excluded_ticket_is_never_admitted rt f w token deviceKey time decode :
  verifyToken rt token = Returned decode →
  free w.2 (blacklist_key rt (field decode "ticket_id")) = false ∨
  free w.2 (revoked_key rt (field decode "ticket_id")) = false →
  ∃ e, (run f (verifyTicket rt token deviceKey time) w).1 = Thrown e.
Proof.
  destruct w as [n σ]. intros Hd Hx.
  destruct (run f (verifyTicket rt token deviceKey time) (n, σ)).1 as [r|e] eqn:Hr;
    [|by eexists].
  destruct (admitted_inv rt f n σ token deviceKey time r Hr)
    as (d & ev & c & old & rec & (_ & Hd' & _ & _ & _ & Hbl & Hrv & _) & _).
  simpl in Hx. rewrite Hd in Hd'. injection Hd' as <-.
  destruct Hx; congruence.
Qed.

Lemma excluded_ticket_is_never_admitted_witness :
  let σ := <["revoked:T1" := EString "stolen" None]> (Scenario.opened 100) in
  let call := verifyTicket Scenario.rt (JString "jwt:T1") (JString "D1")
                (JNumber (Num 1500)) in
  verifyToken Scenario.rt (JString "jwt:T1") = Returned (Scenario.claims "T1") ∧
  free σ (revoked_key Scenario.rt (field (Scenario.claims "T1") "ticket_id")) = false ∧
  ∃ e, (run (Scenario.fault_at 3) call (0%nat, σ)).1 = Thrown e.
Proof.
  split; [vm_compute; reflexivity|]. split; [vm_compute; reflexivity|].
  apply (excluded_ticket_is_never_admitted Scenario.rt (Scenario.fault_at 3)
           (0%nat, <["revoked:T1" := EString "stolen" None]> (Scenario.opened 100))
           (JString "jwt:T1") (JString "D1") (JNumber (Num 1500))
           (Scenario.claims "T1")).
  - vm_compute; reflexivity.
  - right. vm_compute; reflexivity.
Defined.

(** X7. Every record an attempt returns has [status] ['valid'] and
    [entry_status] ['in'], on a first entry and on a re-entry alike. *)
Theorem admitted_record_is_valid_and_inside rt f w token deviceKey time r :
  (run f (verifyTicket rt token deviceKey time) w).1 = Returned r →
  prop r "status" = JString "valid" ∧ prop r "entry_status" = JString "in".
Proof.
  destruct w as [n σ]. intros Hr.
  destruct (admitted_fields rt f n σ token deviceKey time r Hr)
    as (o & -> & Hst & Hin).
  unfold prop, field. by rewrite Hst, Hin.
Qed.

Lemma admitted_record_is_valid_and_inside_witness :
  let σ := Scenario.returning (Scenario.allowing "3") "1" in
  let call := verifyTicket Scenario.rt (JString "jwt:T1") (JString "D1")
                (JNumber (Num 1500)) in
  let r := reentered Scenario.rt
             (JObject (JString <$>
                {[ "ticket_id" := "T1"; "event_id" := "E1"; "status" := "valid";
                   "entry_status" := "out"; "entry_count" := "1" ]})) in
  (run no_faults call (0%nat, σ)).1 = Returned r ∧
  prop r "status" = JString "valid" ∧ prop r "entry_status" = JString "in".
Proof.
  split; [vm_compute; reflexivity|].
  apply (admitted_record_is_valid_and_inside Scenario.rt no_faults
           (0%nat, Scenario.returning (Scenario.allowing "3") "1")
           (JString "jwt:T1") (JString "D1") (JNumber (Num 1500))).
  vm_compute; reflexivity.
Defined.

(** X8. The record an attempt returns is the record it stored: the result
    is an object, and under [ticket:<its ticket_id>] the final store holds
    every one of its properties, as the string the client writes for it. *)
Theorem returned_record_is_stored rt f w token deviceKey time r :
  (run f (verifyTicket rt token deviceKey time) w).1 = Returned r →
  ∃ o, r = JObject o ∧
    ∀ name v, o !! name = Some v →
      Scenario.stored_field (run f (verifyTicket rt token deviceKey time) w).2.2
        (ticket_key rt (prop r "ticket_id")) name
      = Some (Cache.encode rt v).
Proof.
  destruct w as [n σ]. intros Hr.
  destruct (admitted_inv rt f n σ token deviceKey time r Hr)
    as (d & ev & c & old & rec & _ & _ & _ & _ & _ & -> & Hcase).
  assert (∃ o, r = JObject o) as [o ->].
  { destruct Hcase as [[_ ->]|(_ & _ & _ & _ & ->)]; by eexists. }
  exists o. split; [done|]. intros name v Hv.
  unfold Scenario.stored_field, admitted_store.
  rewrite lookup_delete_ne by apply lock_key_ticket_key.
  rewrite lookup_insert_ne by apply not_eq_sym, ticket_key_count.
  rewrite lookup_insert_eq.
  apply lookup_union_Some_l. simpl. by rewrite lookup_fmap, Hv.
Qed.

Lemma returned_record_is_stored_witness :
  let w := (0%nat, Scenario.opened 100) in
  let call := verifyTicket Scenario.rt (JString "jwt:T1") (JString "D1")
                (JNumber (Num 1500)) in
  let r := newTicketData Scenario.rt (Scenario.claims "T1") (JString "D1")
             (JNumber (Num 1500)) in
  (run no_faults call w).1 = Returned r ∧
  ∃ o, r = JObject o ∧
    ∀ name v, o !! name = Some v →
      Scenario.stored_field (run no_faults call w).2.2
        (ticket_key Scenario.rt (prop r "ticket_id")) name
      = Some (Cache.encode Scenario.rt v).
Proof.
  split; [vm_compute; reflexivity|].
  apply (returned_record_is_stored Scenario.rt no_faults
           (0%nat, Scenario.opened 100) (JString "jwt:T1") (JString "D1")
           (JNumber (Num 1500))).
  vm_compute; reflexivity.
Defined.

(** X9. The counter after an admission is the string that was read with
    the character [1] appended: a counter that held the string [c] becomes
    [c ++ "1"], an absent counter becomes ["1"]. *)
Theorem admission_appends_to_the_counter rt f w token deviceKey time r :
  (run f (verifyTicket rt token deviceKey time) w).1 = Returned r →
  (run f (verifyTicket rt token deviceKey time) w).2.2 !! current_attendees_count
  = Some (EString
            match w.2 !! current_attendees_count with
            | Some (EString c _) => c ++ "1"
            | _ => "1"
            end None).
Proof.
  destruct w as [n σ]. intros Hr.
  destruct (admitted_inv rt f n σ token deviceKey time r Hr)
    as (d & ev & c & old & rec & _ & Hc & _ & _ & _ & -> & _).
  unfold admitted_store.
  rewrite lookup_delete_ne by apply lock_key_count.
  rewrite lookup_insert_eq.
  unfold reads in Hc. cbn [snd].
  destruct (σ !! current_attendees_count) as [[v ex|h]|].
  - injection Hc as <-. by destruct v.
  - discriminate.
  - injection Hc as <-. reflexivity.
Qed.

Lemma admission_appends_to_the_counter_witness :
  (run no_faults
     (verifyTicket Scenario.rt (JString "jwt:T2") (JString "D1") (JNumber (Num 1500)))
     (0%nat, Scenario.after "T1" (Scenario.opened 100))).1
  = Scenario.admitted "T2" "D1" ∧
  (run no_faults
     (verifyTicket Scenario.rt (JString "jwt:T2") (JString "D1") (JNumber (Num 1500)))
     (0%nat, Scenario.after "T1" (Scenario.opened 100))).2.2
    !! current_attendees_count
  = Some (EString
            match (0%nat, Scenario.after "T1" (Scenario.opened 100)).2
                    !! current_attendees_count with
            | Some (EString c _) => c ++ "1"
            | _ => "1"
            end None).
Proof.
  split; [vm_compute; reflexivity|].
  apply (admission_appends_to_the_counter Scenario.rt no_faults
           (0%nat, Scenario.after "T1" (Scenario.opened 100))
           (JString "jwt:T2") (JString "D1") (JNumber (Num 1500))
           (newTicketData Scenario.rt (Scenario.claims "T2") (JString "D1")
              (JNumber (Num 1500)))).
  vm_compute; reflexivity.
Defined.

(** ** Records that bar the entry *)

(** X10. A ticket whose stored record says its holder is inside is never
    admitted, whatever the rest of the record, the store and the failures
    of the store. *)
Theorem holder_inside_is_never_admitted rt f w token deviceKey time decode h :
  verifyToken rt token = Returned decode →
  w.2 !! ticket_key rt (field decode "ticket_id") = Some (EHash h) →
  h !! "entry_status" = Some "in" →
  ∃ e, (run f (verifyTicket rt token deviceKey time) w).1 = Thrown e.
Proof. apply holder_inside. Qed.

Lemma holder_inside_is_never_admitted_witness :
  Scenario.stored_field (Scenario.after "T1" (Scenario.opened 100))
    "ticket:T1" "entry_status" = Some "in" ∧
  ∃ e, (run (Scenario.fault_at 7)
          (verifyTicket Scenario.rt (JString "jwt:T1") (JString "D2")
             (JNumber (Num 1700)))
          (0%nat, Scenario.after "T1" (Scenario.opened 100))).1 = Thrown e.
Proof.
  split; [vm_compute; reflexivity|].
  apply (holder_inside_is_never_admitted Scenario.rt (Scenario.fault_at 7)
           (0%nat, Scenario.after "T1" (Scenario.opened 100))
           (JString "jwt:T1") (JString "D2") (JNumber (Num 1700))
           (Scenario.claims "T1")
           (hset_fields Scenario.rt
              (newTicketData Scenario.rt (Scenario.claims "T1") (JString "D1")
                 (JNumber (Num 1500)))));
    vm_compute; reflexivity.
Defined.

(** X11. A ticket whose stored record has a [status] other than ['valid']
    is never admitted. *)
Theorem invalid_record_is_never_admitted rt f w token deviceKey time decode h s :
  verifyToken rt token = Returned decode →
  w.2 !! ticket_key rt (field decode "ticket_id") = Some (EHash h) →
  h !! "status" = Some s →
  String.eqb s "valid" = false →
  ∃ e, (run f (verifyTicket rt token deviceKey time) w).1 = Thrown e.
Proof.
  destruct w as [n σ]. simpl. intros Hd Hrec Hst Hs.
  destruct (run f (verifyTicket rt token deviceKey time) (n, σ)).1 as [r|e] eqn:Hr;
    [|by eexists].
  destruct (admitted_inv rt f n σ token deviceKey time r Hr)
    as (d & ev & c & old & rec & (_ & Hd' & _) & _ & _ & Hrec' & _ & _ & Hcase).
  rewrite Hd in Hd'. injection Hd' as <-.
  unfold reads_hash in Hrec'. rewrite Hrec in Hrec'. injection Hrec' as <-.
  destruct Hcase as [[-> _]|(_ & Hvalid & _)].
  - by rewrite lookup_empty in Hst.
  - rewrite Hst in Hvalid. injection Hvalid as ->. discriminate.
Qed.

Lemma invalid_record_is_never_admitted_witness :
  ∃ e, (run no_faults
          (verifyTicket Scenario.rt (JString "jwt:T1") (JString "D1")
             (JNumber (Num 1500)))
          (0%nat, <["ticket:T1" := EHash {[ "ticket_id" := "T1";
                                             "status" := "used";
                                             "entry_status" := "out" ]}]>
                    (Scenario.opened 100))).1 = Thrown e.
Proof.
  apply (invalid_record_is_never_admitted Scenario.rt no_faults
           (0%nat, <["ticket:T1" := EHash {[ "ticket_id" := "T1";
                                              "status" := "used";
                                              "entry_status" := "out" ]}]>
                     (Scenario.opened 100))
           (JString "jwt:T1") (JString "D1") (JNumber (Num 1500))
           (Scenario.claims "T1")
           {[ "ticket_id" := "T1"; "status" := "used"; "entry_status" := "out" ]}
           "used");
    vm_compute; reflexivity.
Defined.



(** ** The event and the event id of the token *)







(** ** Tokens that do not verify *)



(** ** The two admissions *)



(** X18. The re-entry. When the store answers every command, every check
    passes, the capacity test is false and the ticket has a record with
    [status] ['valid'], an [entry_status] other than ['in'] and an
    [entry_count] for which [entry_count >= event.max_entries] is false,
    the attempt returns that record with [entry_status] set to ['in'] and
    [entry_count + 1] as [entry_count], and stores it under the
    [ticket_id] of the record, on top of the fields [old] that key held. *)
Theorem returning_holder_is_admitted rt n σ token deviceKey time decode event count
    h old :
  passes rt σ token decode event →
  reads σ current_attendees_count = Some count →
  ge (or count (JNumber (Num 0))) (prop event "max_capacity") = false →
  σ !! ticket_key rt (field decode "ticket_id") = Some (EHash h) →
  h !! "status" = Some "valid" →
  strict_eq (prop (JObject (JString <$> h)) "entry_status") (JString "in") = false →
  ge (prop (JObject (JString <$> h)) "entry_count") (prop event "max_entries") = false →
  reads_hash σ (ticket_key rt (prop (reentered rt (JObject (JString <$> h)))
                                 "ticket_id")) = Some old →
  (run no_faults (verifyTicket rt token deviceKey time) (n, σ)).1
    = Returned (reentered rt (JObject (JString <$> h))) ∧
  (run no_faults (verifyTicket rt token deviceKey time) (n, σ)).2.2
    = admitted_store rt σ decode (reentered rt (JObject (JString <$> h))) old count.
Proof.
  intros (Hev & Hd & Hiss & Hexp & Hid & Hbl & Hrv & Hlk) Hcnt Hcap Hrec Hst Hes
    Hmax Hold.
  change (wp no_faults (verifyTicket rt token deviceKey time) (n, σ)
    (λ r w', r = Returned (reentered rt (JObject (JString <$> h))) ∧
             w'.2 = admitted_store rt σ decode
                      (reentered rt (JObject (JString <$> h))) old count)).
  assert (negb (truthy (JObject (JString <$> h)))
          || strict_eq
               (JNumber (Num (Z.of_nat
                  (length (Object_keys (JObject (JString <$> h)))))))
               (JNumber (Num 0)) = false) as Hfresh.
  { destruct (_ || _) eqn:E; [|done]. apply no_record_iff in E. subst h.
    by rewrite lookup_empty in Hst. }
  apply stored_is in Hst.
  assert (reads_hash σ (ticket_key rt (field decode "ticket_id")) = Some h) as Hrec'
    by (unfold reads_hash; by rewrite Hrec).
  apply event_of_reads in Hev as (he & Hev & ->).
  apply free_reads in Hbl as (vb & Hbl & Hvb).
  apply free_reads in Hrv as (vr & Hrv & Hvr).
  apply free_reads in Hlk as (vl & Hlk & Hvl).
  wp_verifyTicket. rewrite Hd. wp_path.
  all: done.
Qed.

Lemma returning_holder_is_admitted_witness :
  (run no_faults
     (verifyTicket Scenario.rt (JString "jwt:T1") (JString "D1") (JNumber (Num 1500)))
     (0%nat, Scenario.returning (Scenario.allowing "3") "1")).1
    = Returned (reentered Scenario.rt
        (JObject (JString <$>
           {[ "ticket_id" := "T1"; "event_id" := "E1"; "status" := "valid";
              "entry_status" := "out"; "entry_count" := "1" ]}))) ∧
  (run no_faults
     (verifyTicket Scenario.rt (JString "jwt:T1") (JString "D1") (JNumber (Num 1500)))
     (0%nat, Scenario.returning (Scenario.allowing "3") "1")).2.2
    = admitted_store Scenario.rt (Scenario.returning (Scenario.allowing "3") "1")
        (Scenario.claims "T1")
        (reentered Scenario.rt
           (JObject (JString <$>
              {[ "ticket_id" := "T1"; "event_id" := "E1"; "status" := "valid";
                 "entry_status" := "out"; "entry_count" := "1" ]})))
        {[ "ticket_id" := "T1"; "event_id" := "E1"; "status" := "valid";
           "entry_status" := "out"; "entry_count" := "1" ]}
        JNull.
Proof.
  apply (returning_holder_is_admitted Scenario.rt 0
           (Scenario.returning (Scenario.allowing "3") "1")
           (JString "jwt:T1") (JString "D1") (JNumber (Num 1500))
           (Scenario.claims "T1")
           (JObject (JString <$>
              {[ "id" := "E1"; "max_capacity" := "100"; "max_entries" := "3" ]}))
           JNull
           {[ "ticket_id" := "T1"; "event_id" := "E1"; "status" := "valid";
              "entry_status" := "out"; "entry_count" := "1" ]}
           {[ "ticket_id" := "T1"; "event_id" := "E1"; "status" := "valid";
              "entry_status" := "out"; "entry_count" := "1" ]});
    unfold passes; evaluate.
Defined.

(** X19. A holder who was admitted is not admitted again. After an attempt
    that returned a record carrying the [ticket_id] of the token, every
    later attempt with that token on the store it left ends by throwing,
    at any device, at any time, and whichever commands fail. *)
Theorem admitted_holder_is_not_admitted_again rt f w token deviceKey time decode r
    f' n' deviceKey' time' :
  verifyToken rt token = Returned decode →
  (run f (verifyTicket rt token deviceKey time) w).1 = Returned r →
  prop r "ticket_id" = field decode "ticket_id" →
  ∃ e, (run f' (verifyTicket rt token deviceKey' time')
          (n', (run f (verifyTicket rt token deviceKey time) w).2.2)).1
       = Thrown e.
Proof.
  destruct w as [n σ]. intros Hd Hr Hid.
  destruct (admitted_fields rt f n σ token deviceKey time r Hr)
    as (o & -> & _ & Hin).
  destruct (admitted_inv rt f n σ token deviceKey time _ Hr)
    as (d & ev & c & old & rec & (_ & Hd' & _) & _ & _ & _ & _ & Hfinal & _).
  rewrite Hd in Hd'. injection Hd' as <-.
  apply (holder_inside rt f' (n', _) token deviceKey' time' decode
           (hset_fields rt (JObject o) ∪ old)); [done| |].
  - rewrite Hfinal. unfold admitted_store. simpl.
    rewrite lookup_delete_ne by apply lock_key_ticket_key.
    rewrite lookup_insert_ne by apply not_eq_sym, ticket_key_count.
    simpl in Hid. rewrite Hid. by rewrite lookup_insert_eq.
  - apply lookup_union_Some_l. simpl. by rewrite lookup_fmap, Hin.
Qed.

(** Witness: scenario 2 of the design, the second scan of [T1] at another
    device. *)
Lemma admitted_holder_is_not_admitted_again_witness :
  (run no_faults
     (verifyTicket Scenario.rt (JString "jwt:T1") (JString "D1") (JNumber (Num 1500)))
     (0%nat, Scenario.opened 100)).1
    = Scenario.admitted "T1" "D1" ∧
  ∃ e, (run no_faults
          (verifyTicket Scenario.rt (JString "jwt:T1") (JString "D2")
             (JNumber (Num 1700)))
          (0%nat,
           (run no_faults
              (verifyTicket Scenario.rt (JString "jwt:T1") (JString "D1")
                 (JNumber (Num 1500)))
              (0%nat, Scenario.opened 100)).2.2)).1
       = Thrown e.
Proof.
  split; [vm_compute; reflexivity|].
  apply (admitted_holder_is_not_admitted_again Scenario.rt no_faults
           (0%nat, Scenario.opened 100) (JString "jwt:T1") (JString "D1")
           (JNumber (Num 1500)) (Scenario.claims "T1")
           (newTicketData Scenario.rt (Scenario.claims "T1") (JString "D1")
              (JNumber (Num 1500)))
           no_faults 0%nat (JString "D2") (JNumber (Num 1700)));
    vm_compute; reflexivity.
Defined.

(** ** The queue worker *)

(** X20. Whatever the job, the worker's call changes nothing in the store
    and is rejected, with "Invalid token" when the event could be loaded
    and with the error of the store when it could not: the payload object
    stands where the token string is expected. *)
Theorem worker_rejects_and_changes_nothing rt f w token deviceKey scanTime :
  (run f (Worker.process rt (Worker.payload token deviceKey scanTime)) w).1
    = Thrown (if loads_event f w then TokenInvalid else ClientError) ∧
  (run f (Worker.process rt (Worker.payload token deviceKey scanTime)) w).2.2
    = w.2.
Proof. by apply undecoded. Qed.

(** ** The verification handler *)

(** X21. When the handler answers 200, the [data] of the answer is a
    record with [status] ['valid'] and [entry_status] ['in'], and [code]
    is the device key of the request. *)
Theorem answer_200_carries_an_admitted_record rt client_message f w body :
  Express.status (run f (VerificationController.verifyTicket rt client_message body) w).1
    = 200 →
  let answer :=
    Express.body (run f (VerificationController.verifyTicket rt client_message body) w).1
  in
  prop (prop answer "data") "status" = JString "valid" ∧
  prop (prop answer "data") "entry_status" = JString "in" ∧
  prop answer "code" = field body "deviceKey".
Proof.
  destruct w as [n σ]. unfold VerificationController.verifyTicket.
  destruct (_ || _); [discriminate|].
  rewrite run_bind.
  destruct (run f (verifyTicket rt (field body "qrcode") (field body "deviceKey")
                     (field body "time")) (n, σ)).1 as [r|e] eqn:Hr;
    [|discriminate].
  intros _.
  destruct (admitted_fields rt f n σ _ _ _ r Hr) as (o & -> & Hst & Hin).
  split; [|split].
  - change (field o "status" = JString "valid"). unfold field. by rewrite Hst.
  - change (field o "entry_status" = JString "in"). unfold field. by rewrite Hin.
  - reflexivity.
Qed.

Lemma answer_200_carries_an_admitted_record_witness :
  let answer :=
    Express.body
      (run no_faults
         (VerificationController.verifyTicket Scenario.rt "ECONNREFUSED"
            {[ "deviceKey" := JString "D1"; "time" := JNumber (Num 1500);
               "qrcode" := JString "jwt:T1" ]})
         (0%nat, Scenario.opened 100)).1
  in
  prop (prop answer "data") "status" = JString "valid" ∧
  prop (prop answer "data") "entry_status" = JString "in" ∧
  prop answer "code"
    = field {[ "deviceKey" := JString "D1"; "time" := JNumber (Num 1500);
               "qrcode" := JString "jwt:T1" ]} "deviceKey".
Proof.
  apply (answer_200_carries_an_admitted_record Scenario.rt "ECONNREFUSED" no_faults
           (0%nat, Scenario.opened 100)
           {[ "deviceKey" := JString "D1"; "time" := JNumber (Num 1500);
              "qrcode" := JString "jwt:T1" ]}).
  vm_compute; reflexivity.
Defined.

(** X22. A 400 of the handler, be it for a missing parameter, a rejection
    or a failure of the store, leaves every ticket record and the attendee
    counter as they were. *)
Theorem answer_400_changes_no_ticket rt client_message f w body ticketId :
  Express.status (run f (VerificationController.verifyTicket rt client_message body) w).1
    = 400 →
  (run f (VerificationController.verifyTicket rt client_message body) w).2.2
    !! ticket_key rt ticketId = w.2 !! ticket_key rt ticketId ∧
  (run f (VerificationController.verifyTicket rt client_message body) w).2.2
    !! current_attendees_count = w.2 !! current_attendees_count.
Proof.
  destruct w as [n σ]. unfold VerificationController.verifyTicket.
  destruct (_ || _); [done|].
  rewrite run_bind.
  destruct (run f (verifyTicket rt (field body "qrcode") (field body "deviceKey")
                     (field body "time")) (n, σ)).1 as [r|e] eqn:Hr;
    [discriminate|].
  intros _. cbn beta iota. rewrite run_ret. cbn [snd].
  destruct (thrown_store rt f n σ _ _ _ e Hr) as [->|(d & _ & ->)]; [done|].
  rewrite !lookup_delete_ne by (apply lock_key_ticket_key || apply lock_key_count).
  done.
Qed.

Lemma answer_400_changes_no_ticket_witness :
  (run no_faults
     (VerificationController.verifyTicket Scenario.rt "ECONNREFUSED"
        {[ "deviceKey" := JString "D2"; "time" := JNumber (Num 1700);
           "qrcode" := JString "jwt:T1" ]})
     (0%nat, Scenario.after "T1" (Scenario.opened 100))).2.2
    !! ticket_key Scenario.rt (JString "T1")
    = (0%nat, Scenario.after "T1" (Scenario.opened 100)).2
        !! ticket_key Scenario.rt (JString "T1") ∧
  (run no_faults
     (VerificationController.verifyTicket Scenario.rt "ECONNREFUSED"
        {[ "deviceKey" := JString "D2"; "time" := JNumber (Num 1700);
           "qrcode" := JString "jwt:T1" ]})
     (0%nat, Scenario.after "T1" (Scenario.opened 100))).2.2
    !! current_attendees_count
    = (0%nat, Scenario.after "T1" (Scenario.opened 100)).2
        !! current_attendees_count.
Proof.
  apply (answer_400_changes_no_ticket Scenario.rt "ECONNREFUSED" no_faults
           (0%nat, Scenario.after "T1" (Scenario.opened 100))
           {[ "deviceKey" := JString "D2"; "time" := JNumber (Num 1700);
              "qrcode" := JString "jwt:T1" ]}
           (JString "T1")).
  vm_compute; reflexivity.
Defined.

(** ** The event handlers *)

(** X23. [getEvent] never answers 404: what [hGetAll] resolves with is an
    object, also when there is no current event, and an object is truthy. *)
Theorem getEvent_never_answers_404 f w :
  Express.status (run f EventController.getEvent w).1 ≠ 404.
Proof.
  destruct w as [n σ].
  change (wp f EventController.getEvent (n, σ) (λ a _, Express.status a ≠ 404)).
  unfold EventController.getEvent. wp_go; simpl; done.
Qed.

(** X24. After [deleteEvent] the current event is gone from the store, and
    [getEvent] answers 200 with an event that has no property. *)
Theorem deleted_event_is_found_empty n σ :
  (run no_faults
     (bind EventController.deleteEvent (λ _, EventController.getEvent)) (n, σ)).1
    = Express.Sent 200
        (JObject {[ "event" := JObject ∅; "success" := JBool true ]}) ∧
  (run no_faults
     (bind EventController.deleteEvent (λ _, EventController.getEvent)) (n, σ)).2.2
    !! current_event = None.
Proof.
  change (wp no_faults
            (bind EventController.deleteEvent (λ _, EventController.getEvent)) (n, σ)
            (λ a w', a = Express.Sent 200
                           (JObject {[ "event" := JObject ∅; "success" := JBool true ]}) ∧
                     w'.2 !! current_event = None)).
  unfold EventController.deleteEvent, EventController.getEvent.
  wp_go; simpl.
  all: repeat match goal with
       | H : no_faults _ = true ∨ _ |- _ => destruct H as [H|H]; [discriminate H|]
       | H : reads_hash (delete _ _) _ = _ |- _ =>
           unfold reads_hash in H; rewrite lookup_delete_eq in H
       end.
  all: simplify_eq.
  by rewrite fmap_empty, lookup_delete_eq.
Qed.



(** ** The cache *)




